(** * DayFlow: the timeline reconciliation logic of the popup and of the
      background worker, embedded from [popup.js], [calendar.js] and
      [background.js].

    The embedding is shallow: every JavaScript function that the properties
    below talk about is a Rocq function with the same name, working on the
    data the script works on (JSON values, [Date] objects, IEEE doubles,
    arrays as lists).  Functions that can throw return a [Completion];
    functions that talk to the browser run in a small state monad over the
    host's answers and leave a trace of the calls they made. *)

From Stdlib Require Import ZArith List String Ascii Bool Lia.
From Stdlib Require Import Permutation Sorted.
From Stdlib Require Import SpecFloat DecimalString.
From Stdlib Require DecimalZ DecimalPos.
Import ListNotations.

Set Warnings "-register-all".

Local Open Scope string_scope.
Local Open Scope list_scope.
Local Open Scope Z_scope.

(** ** JavaScript values *)

Module Js.

(** *** Numbers: IEEE 754 binary64 *)

Definition Number := spec_float.

Definition prec : Z := 53.
Definition emax : Z := 1024.

Definition NaN : Number := S754_nan.
Definition Number_of_Z (z : Z) : Number := binary_normalize prec emax z 0 false.

Definition num_sub : Number -> Number -> Number := SFsub prec emax.
Definition num_mul : Number -> Number -> Number := SFmul prec emax.
Definition num_div : Number -> Number -> Number := SFdiv prec emax.

Definition is_nan (x : Number) : bool :=
  match x with S754_nan => true | _ => false end.

Definition is_zero (x : Number) : bool :=
  match x with S754_zero _ => true | _ => false end.

(** [Math.max] and [Math.min]: NaN if either argument is NaN, and [+0] is
    larger than [-0]. *)
Definition Math_max (a b : Number) : Number :=
  if is_nan a || is_nan b then NaN
  else match a, b with
       | S754_zero sa, S754_zero sb => S754_zero (sa && sb)
       | _, _ => if SFltb a b then b else a
       end.

Definition Math_min (a b : Number) : Number :=
  if is_nan a || is_nan b then NaN
  else match a, b with
       | S754_zero sa, S754_zero sb => S754_zero (sa || sb)
       | _, _ => if SFltb b a then b else a
       end.

(** *** JSON values, as [res.json()] and [chrome.storage] hand them over *)

Inductive JsValue : Type :=
| JUndefined
| JNull
| JBool (b : bool)
| JNum (n : Number)
| JStr (s : string)
| JArr (items : list JsValue)
| JObj (props : list (string * JsValue)).

(** ToBoolean. *)
Definition truthy (v : JsValue) : bool :=
  match v with
  | JUndefined | JNull => false
  | JBool b => b
  | JNum n => negb (is_zero n || is_nan n)
  | JStr s => negb (String.eqb s "")
  | JArr _ | JObj _ => true
  end.

(** [a || b] *)
Definition or_else (a b : JsValue) : JsValue := if truthy a then a else b.

(** What a statement can do: finish with a value or throw. *)
Inductive Thrown : Type :=
| ErrorObj (message : string)        (* new Error(message) *)
| TypeError                          (* raised by the engine *)
| SyntaxError                        (* raised by res.json() *)
| NetworkError                       (* fetch() rejected *)
| Rejected (reason : string).        (* reject(reason) with a string *)

Inductive Completion (A : Type) : Type :=
| Normal (a : A)
| Throw (e : Thrown).
Arguments Normal {A} a.
Arguments Throw {A} e.

Definition bindC {A B} (c : Completion A) (k : A -> Completion B) : Completion B :=
  match c with
  | Normal a => k a
  | Throw e => Throw e
  end.

(** [err.message === m].  The messages of the errors the engine raises
    itself are its own wording, never a string of the scripts. *)
Definition message_is (err : Thrown) (m : string) : bool :=
  match err with
  | ErrorObj message => String.eqb message m
  | _ => false
  end.

Fixpoint lookup (k : string) (props : list (string * JsValue)) : JsValue :=
  match props with
  | [] => JUndefined
  | (k', v) :: rest => if String.eqb k k' then v else lookup k rest
  end.

(** [v.k] for the property names read by the scripts ([start], [end],
    [dateTime], [id], [summary], [items], ...): none of them is defined on
    the prototypes of primitives or arrays, so only objects answer. *)
Definition get (v : JsValue) (k : string) : Completion JsValue :=
  match v with
  | JUndefined | JNull => Throw TypeError
  | JObj props => Normal (lookup k props)
  | _ => Normal JUndefined
  end.

(** [v?.k] *)
Definition get_opt (v : JsValue) (k : string) : JsValue :=
  match v with
  | JObj props => lookup k props
  | _ => JUndefined
  end.

(** SameValueZero, the equality of [Set.prototype.has].  Objects are equal
    only to themselves; two decoded JSON objects never are. *)
Definition sameValueZero (a b : JsValue) : bool :=
  match a, b with
  | JUndefined, JUndefined => true
  | JNull, JNull => true
  | JBool x, JBool y => Bool.eqb x y
  | JNum x, JNum y => (is_nan x && is_nan y) || SFeqb x y
  | JStr x, JStr y => String.eqb x y
  | _, _ => false
  end.

(** A [Set] of JSON values, in insertion order. *)
Definition JsSet := list JsValue.

Definition has (s : JsSet) (v : JsValue) : bool := existsb (sameValueZero v) s.

(** *** Dates *)

(** A [Date] holds a time value: an integral number of milliseconds since
    the epoch, or NaN ("Invalid Date"). *)
Inductive JSDate : Type :=
| TimeValue (t : Z)
| InvalidDate.

(** ToNumber of a Date, as used by [-] on two dates. *)
Definition valueOf (d : JSDate) : Number :=
  match d with
  | TimeValue t => Number_of_Z t
  | InvalidDate => NaN
  end.

(** The relational operators on two dates compare their time values; any
    comparison with NaN is false. *)
Definition date_leb (a b : JSDate) : bool :=
  match a, b with
  | TimeValue x, TimeValue y => x <=? y
  | _, _ => false
  end.

Definition date_ltb (a b : JSDate) : bool :=
  match a, b with
  | TimeValue x, TimeValue y => x <? y
  | _, _ => false
  end.

Definition date_gtb (a b : JSDate) : bool := date_ltb b a.

End Js.

Import Js.

Declare Scope date_scope.
Delimit Scope date_scope with date.
Infix "<=?" := date_leb (at level 70) : date_scope.
Infix "<?" := date_ltb (at level 70) : date_scope.
Infix ">?" := date_gtb (at level 70) : date_scope.

(** ** The event record built by [normalizeEvent] *)

(** [color], [description] and [location] exist only on the events of
    [calendar.js]; in [popup.js] they are absent and read as [undefined].
    [_manuallyCompleted] is absent ([false]) until it is set to [true]. *)
Record Event : Type := mkEvent {
  id : JsValue;
  title : JsValue;
  start : JSDate;
  end_ : JSDate;
  color : JsValue;
  description : JsValue;
  location : JsValue;
  _manuallyCompleted : bool
}.

(** The result of [classifyEvents]. *)
Record Classification : Type := mkClassification {
  current : option Event;
  next : option Event;
  upcoming : list Event;
  past : list Event
}.

(** ** calendar.js / popup.js: classification *)

Section Classify.

Variable now : JSDate.

(** [e => e.start <= now && e.end > now] *)
Definition is_current (e : Event) : bool :=
  (start e <=? now)%date && (end_ e >? now)%date.

(** [e => e.start > now] *)
Definition is_future (e : Event) : bool := (start e >? now)%date.

(** [e => e.end <= now] *)
Definition is_past (e : Event) : bool := (end_ e <=? now)%date.

(** [classifyEvents(events, now)]; the two scripts hold the same text.  An
    event object is always truthy, so [x || null] is [x] when [find] or
    the index found one and [null] otherwise. *)
Definition classifyEvents (events : list Event) : Classification :=
  let current := find is_current events in
  let future := filter is_future events in
  let next := hd_error future in
  let upcoming := tl future in
  let past := filter is_past events in
  {| current := current; next := next; upcoming := upcoming; past := past |}.

End Classify.

Definition opt_list {A} (o : option A) : list A :=
  match o with Some a => [a] | None => [] end.

(** The events of the four buckets, in the order the drawer shows them. *)
Definition buckets (c : Classification) : list Event :=
  past c ++ opt_list (current c) ++ opt_list (next c) ++ upcoming c.

(** ** calendar.js / popup.js: progress of an event *)

(** [eventProgress(event, now)]; the two scripts hold the same text. *)
Definition eventProgress (event : Event) (now : JSDate) : Number :=
  let total := num_sub (valueOf (end_ event)) (valueOf (start event)) in
  let elapsed := num_sub (valueOf now) (valueOf (start event)) in
  Math_min (Number_of_Z 100)
    (Math_max (Number_of_Z 0) (num_mul (num_div elapsed total) (Number_of_Z 100))).

Declare Scope completion_scope.
Delimit Scope completion_scope with completion.
Notation "x <- c ;; k" := (bindC c (fun x => k))
  (at level 61, c at next level, right associativity) : completion_scope.

(** ** Normalisation of a raw provider event *)

Section Normalize.

(** The host's [Date] constructor applied to a JSON value: parsing is the
    engine's business, so every statement about [normalizeEvent] is made
    for an arbitrary constructor. *)
Variable Date_new : JsValue -> JSDate.

Local Open Scope completion_scope.

(** [normalizeEvent(raw)] of [popup.js]; [None] is the [null] that
    [filter(Boolean)] drops. *)
Definition normalizeEvent (raw : JsValue) : Completion (option Event) :=
  raw_start <- get raw "start" ;;
  let startDT := get_opt raw_start "dateTime" in
  raw_end <- get raw "end" ;;
  let endDT := get_opt raw_end "dateTime" in
  if negb (truthy startDT) || negb (truthy endDT) then Normal None
  else
    raw_id <- get raw "id" ;;
    raw_summary <- get raw "summary" ;;
    Normal (Some {| id := raw_id;
                    title := or_else raw_summary (JStr "(no title)");
                    start := Date_new startDT;
                    end_ := Date_new endDT;
                    color := JUndefined;
                    description := JUndefined;
                    location := JUndefined;
                    _manuallyCompleted := false |}).

(** [(data.items || []).map(normalizeEvent).filter(Boolean)], for a
    callback [f] that may throw. *)
Fixpoint map_filter (f : JsValue -> Completion (option Event))
    (items : list JsValue) : Completion (list Event) :=
  match items with
  | [] => Normal []
  | raw :: rest =>
      r <- f raw ;;
      rs <- map_filter f rest ;;
      Normal (match r with Some e => e :: rs | None => rs end)
  end.

End Normalize.

Module Calendar.
Section Normalize.

Variable Date_new : JsValue -> JSDate.

Local Open Scope completion_scope.

(** [normalizeEvent(raw)] of [calendar.js]: the same test, three more
    properties on the result. *)
Definition normalizeEvent (raw : JsValue) : Completion (option Event) :=
  raw_start <- get raw "start" ;;
  let startDT := get_opt raw_start "dateTime" in
  raw_end <- get raw "end" ;;
  let endDT := get_opt raw_end "dateTime" in
  if negb (truthy startDT) || negb (truthy endDT) then Normal None
  else
    raw_id <- get raw "id" ;;
    raw_summary <- get raw "summary" ;;
    raw_colorId <- get raw "colorId" ;;
    raw_description <- get raw "description" ;;
    raw_location <- get raw "location" ;;
    Normal (Some {| id := raw_id;
                    title := or_else raw_summary (JStr "(no title)");
                    start := Date_new startDT;
                    end_ := Date_new endDT;
                    color := or_else raw_colorId JNull;
                    description := or_else raw_description (JStr "");
                    location := or_else raw_location (JStr "");
                    _manuallyCompleted := false |}).

End Normalize.
End Calendar.

(** ** popup.js: persistence and the streak *)

(** The fields of a local [Date] that the day key is made of. *)
Record LocalDate : Type := mkLocalDate {
  getFullYear : Z;
  getMonth : Z;      (* 0 .. 11 *)
  getDate : Z        (* 1 .. 31 *)
}.

(** [String(n)] for an integer. *)
Definition String_of_Z (n : Z) : string :=
  DecimalString.NilZero.string_of_int (Z.to_int n).

(** [s.padStart(2, '0')] *)
Definition padStart2 (s : string) : string :=
  match String.length s with
  | O => "00"
  | S O => String "0" s
  | _ => s
  end.

(** The template of [todayKey()], also used for [yKey]. *)
Definition dayKey (d : LocalDate) : string :=
  String.append (String_of_Z (getFullYear d))
    (String.append "-"
       (String.append (padStart2 (String_of_Z (getMonth d + 1)))
          (String.append "-" (padStart2 (String_of_Z (getDate d)))))).

(** [chrome.storage.local], with the keys the popup uses: the streak
    counter, its day, and one list of completed ids per day key. *)
Record Storage : Type := mkStorage {
  streak : option Z;
  streakLastDate : option string;
  completed : list (string * list JsValue)
}.

Fixpoint assoc {A} (k : string) (l : list (string * A)) : option A :=
  match l with
  | [] => None
  | (k', v) :: rest => if String.eqb k k' then Some v else assoc k rest
  end.

(** [new Set(array)]: duplicates are dropped, the first occurrence stays. *)
Fixpoint Set_of (l : list JsValue) (acc : JsSet) : JsSet :=
  match l with
  | [] => acc
  | v :: rest => Set_of rest (if has acc v then acc else acc ++ [v])
  end.

Section Today.

(** The local calendar day of the clock, and the day that
    [setDate(getDate() - 1)] turns it into. *)
Variable today : LocalDate.
Variable yesterday : LocalDate.

Definition todayKey : string := dayKey today.

(** [loadCompletedIds()] *)
Definition loadCompletedIds (st : Storage) : JsSet :=
  let key := String.append "completed_" todayKey in
  match assoc key (completed st) with
  | Some ids => Set_of ids []
  | None => []
  end.

(** [getStreak()]: [result.streak || 1] and
    [result.streakLastDate || todayKey()]. *)
Definition getStreak (st : Storage) : Z * string :=
  let streak := match streak st with
                | Some n => if n =? 0 then 1 else n
                | None => 1
                end in
  let lastDate := match streakLastDate st with
                  | Some s => if String.eqb s "" then todayKey else s
                  | None => todayKey
                  end in
  (streak, lastDate).

(** [updateStreak()]: the count it resolves to and the storage it leaves. *)
Definition updateStreak (st : Storage) : Z * Storage :=
  let '(streak, lastDate) := getStreak st in
  let today := todayKey in
  if String.eqb lastDate today then (streak, st)
  else
    let yKey := dayKey yesterday in
    let newStreak := if String.eqb lastDate yKey then streak + 1 else 1 in
    (newStreak,
     {| streak := Some newStreak;
        streakLastDate := Some today;
        completed := completed st |}).

End Today.

(** ** background.js: what [updateBadge] selects *)

Module Background.
Section UpdateBadge.

Variable Date_new : JsValue -> JSDate.
Variable now : JSDate.

Local Open Scope completion_scope.

(** [events.find(p)] and [items.filter(p)] for a callback that may throw. *)
Fixpoint find (p : JsValue -> Completion bool) (l : list JsValue)
    : Completion (option JsValue) :=
  match l with
  | [] => Normal None
  | e :: rest => b <- p e ;; if (b : bool) then Normal (Some e) else find p rest
  end.

Fixpoint filter (p : JsValue -> Completion bool) (l : list JsValue)
    : Completion (list JsValue) :=
  match l with
  | [] => Normal []
  | e :: rest =>
      b <- p e ;;
      rs <- filter p rest ;;
      Normal (if (b : bool) then e :: rs else rs)
  end.

(** [e => e.start?.dateTime], the filter of [fetchEvents]. *)
Definition has_start (e : JsValue) : Completion bool :=
  e_start <- get e "start" ;;
  Normal (truthy (get_opt e_start "dateTime")).

(** [(data.items || []).filter(e => e.start?.dateTime)] *)
Definition fetchEvents_items (data : JsValue) : Completion (list JsValue) :=
  items <- get data "items" ;;
  match or_else items (JArr []) with
  | JArr l => filter has_start l
  | _ => Throw TypeError
  end.

(** [e => new Date(e.start.dateTime) <= now && new Date(e.end.dateTime) > now];
    [&&] reads [e.end] only when its left side holds. *)
Definition is_current (e : JsValue) : Completion bool :=
  e_start <- get e "start" ;;
  startDT <- get e_start "dateTime" ;;
  if (Date_new startDT <=? now)%date then
    e_end <- get e "end" ;;
    endDT <- get e_end "dateTime" ;;
    Normal (Date_new endDT >? now)%date
  else Normal false.

(** [e => new Date(e.start.dateTime) > now] *)
Definition is_next (e : JsValue) : Completion bool :=
  e_start <- get e "start" ;;
  startDT <- get e_start "dateTime" ;;
  Normal (Date_new startDT >? now)%date.

(** The [current] and [next] of [updateBadge], from which the badge text
    and the notification are derived. *)
Definition updateBadge_select (events : list JsValue)
    : Completion (option JsValue * option JsValue) :=
  current <- find is_current events ;;
  next <- find is_next events ;;
  Normal (current, next).

End UpdateBadge.
End Background.

(** ** popup.js: talking to the browser *)

(** What [chrome.identity.getAuthToken] passes to its callback: the token,
    if any, and [chrome.runtime.lastError] with its message, if set. *)
Record IdentityAnswer : Type := mkIdentityAnswer {
  token : option string;
  lastError : option (option string)
}.

(** What [fetch] settles to: a rejection, or a response with its status
    and its body as [res.json()] decodes it ([None]: not JSON). *)
Inductive HttpAnswer : Type :=
| NoResponse
| Response (status : Z) (body : option JsValue).

(** The browser and the provider: the answer to the n-th call of each. *)
Record Host : Type := mkHost {
  identity_answer : nat -> bool -> IdentityAnswer;
  fetch_answer : nat -> string -> HttpAnswer
}.

(** The calls a run makes, in order. *)
Inductive Call : Type :=
| GetAuthToken (interactive : bool)
| RemoveCachedAuthToken (token : string)
| Fetch (token : string).

(** The module-level variables of [popup.js], the storage, and the
    bookkeeping of the host's answers. *)
Record World : Type := mkWorld {
  identity_calls : nat;
  fetch_calls : nat;
  trace : list Call;
  storage : Storage;
  events : list Event;
  completedIds : JsSet;
  classified : Classification;
  tickInterval : bool
}.

Definition M (A : Type) : Type := World -> Completion A * World.

Definition ret {A} (a : A) : M A := fun w => (Normal a, w).

Definition bind {A B} (m : M A) (k : A -> M B) : M B :=
  fun w => match m w with
           | (Normal a, w') => k a w'
           | (Throw e, w') => (Throw e, w')
           end.

Definition throw {A} (e : Thrown) : M A := fun w => (Throw e, w).

(** [try { m } catch (err) { handler(err) }] *)
Definition try_catch {A} (m : M A) (handler : Thrown -> M A) : M A :=
  fun w => match m w with
           | (Normal a, w') => (Normal a, w')
           | (Throw e, w') => handler e w'
           end.

Definition lift {A} (c : Completion A) : M A := fun w => (c, w).

Definition modify (f : World -> World) : M unit := fun w => (Normal tt, f w).

Definition gets {A} (f : World -> A) : M A := fun w => (Normal (f w), w).

Declare Scope host_scope.
Delimit Scope host_scope with host.
Notation "x <- c ;; k" := (bind c (fun x => k))
  (at level 61, c at next level, right associativity) : host_scope.
Notation "c ;;; k" := (bind c (fun _ => k))
  (at level 61, right associativity) : host_scope.

Definition log (c : Call) (w : World) : World :=
  {| identity_calls := identity_calls w; fetch_calls := fetch_calls w;
     trace := trace w ++ [c]; storage := storage w; events := events w;
     completedIds := completedIds w; classified := classified w;
     tickInterval := tickInterval w |}.

Definition count_identity (w : World) : World :=
  {| identity_calls := S (identity_calls w); fetch_calls := fetch_calls w;
     trace := trace w; storage := storage w; events := events w;
     completedIds := completedIds w; classified := classified w;
     tickInterval := tickInterval w |}.

Definition count_fetch (w : World) : World :=
  {| identity_calls := identity_calls w; fetch_calls := S (fetch_calls w);
     trace := trace w; storage := storage w; events := events w;
     completedIds := completedIds w; classified := classified w;
     tickInterval := tickInterval w |}.

Definition set_events (evs : list Event) (w : World) : World :=
  {| identity_calls := identity_calls w; fetch_calls := fetch_calls w;
     trace := trace w; storage := storage w; events := evs;
     completedIds := completedIds w; classified := classified w;
     tickInterval := tickInterval w |}.

Definition set_completedIds (ids : JsSet) (w : World) : World :=
  {| identity_calls := identity_calls w; fetch_calls := fetch_calls w;
     trace := trace w; storage := storage w; events := events w;
     completedIds := ids; classified := classified w;
     tickInterval := tickInterval w |}.

Definition set_classified (c : Classification) (w : World) : World :=
  {| identity_calls := identity_calls w; fetch_calls := fetch_calls w;
     trace := trace w; storage := storage w; events := events w;
     completedIds := completedIds w; classified := c;
     tickInterval := tickInterval w |}.

Definition set_tickInterval (b : bool) (w : World) : World :=
  {| identity_calls := identity_calls w; fetch_calls := fetch_calls w;
     trace := trace w; storage := storage w; events := events w;
     completedIds := completedIds w; classified := classified w;
     tickInterval := b |}.

(** ** popup.js: the completion overrides *)

(** [new Date(Math.min(d.getTime(), now.getTime()))]; both time values are
    integers well inside the range that doubles hold exactly. *)
Definition Date_min (d : JSDate) (now : Z) : JSDate :=
  match d with
  | TimeValue t => TimeValue (Z.min t now)
  | InvalidDate => InvalidDate
  end.

(** The callback of [events.forEach] in [applyCompletedIds]: the event
    object is updated in place, here the updated record is returned. *)
Definition applyCompletedIds_each (completedIds : JsSet) (now : Z) (e : Event)
    : Event :=
  if has completedIds (id e) && (end_ e >? TimeValue now)%date then
    {| id := id e;
       title := title e;
       start := start e;
       end_ := Date_min (end_ e) now;
       color := color e;
       description := description e;
       location := location e;
       _manuallyCompleted := true |}
  else e.

(** [applyCompletedIds()], on the module's [events] and [completedIds];
    [now] is the [new Date()] it reads, always a valid instant.  Every
    element of [events] is an object of its own, made by [normalizeEvent],
    so updating them one by one in place is a [map].

    [classified] holds objects, not copies: between this loop and the
    [render()] that follows it in both callers, the buckets of the last
    [render()] show the events as the loop left them.  The record
    [classified] of the model is the value assigned by the last
    [render()], and it is read only after a [render()]. *)
Definition applyCompletedIds (now : Z) (w : World) : World :=
  set_events (map (applyCompletedIds_each (completedIds w) now) (events w)) w.

(** [render()], the variables it leaves:
    [classified = classifyEvents(events, now)] is its first statement, and
    nothing after it assigns to a variable of the module.  What follows
    writes to the document and can throw, see [render_returns]. *)
Definition render (now : Z) (w : World) : World :=
  set_classified (classifyEvents (TimeValue now) (events w)) w.

Definition is_string (v : JsValue) : bool :=
  match v with JStr _ => true | _ => false end.

(** Whether ToString returns on a JSON value, as a template literal and
    the setter of [textContent] apply it.  No JSON value is callable, so
    an object with a property [toString] of its own has no method left
    that answers a primitive, and the conversion is a TypeError; any
    other object is ["[object Object]"].  An array joins the conversions
    of its elements. *)
Fixpoint ToString_returns (v : JsValue) : bool :=
  match v with
  | JObj props => negb (existsb (fun p => String.eqb (fst p) "toString") props)
  | JArr items => forallb ToString_returns items
  | _ => true
  end.

(** Whether the rest of [render()] returns, on the elements of the popup's
    document.  [renderNow] and [renderDrawer] convert the title of every
    event they show to a string; [renderNext] calls
    [eventEmoji(next.title)], whose [title.toLowerCase()] is a TypeError
    unless the title is a string. *)
Definition render_returns (c : Classification) : bool :=
  match next c with
  | Some n => is_string (title n)
  | None => true
  end
  && forallb (fun e => ToString_returns (title e)) (buckets c).

(** [render()] as a statement of [loadAndRender]. *)
Definition render_run (now : Z) : M unit :=
  fun w =>
    let w' := render now w in
    (if render_returns (classified w') then Normal tt else Throw TypeError, w').

Section Popup.

Variable host : Host.

(** The normaliser that [fetchTodayEvents] maps over the items: the
    [normalizeEvent] of the script at hand. *)
Variable normalize : JsValue -> Completion (option Event).

(** The clock of the run. *)
Variable now : Z.
Variable today : LocalDate.

Local Open Scope host_scope.

(** [chrome.identity.getAuthToken({ interactive }, callback)]: the answer
    the callback receives. *)
Definition identity_getAuthToken (interactive : bool) : M IdentityAnswer :=
  fun w => (Normal (identity_answer host (identity_calls w) interactive),
            count_identity (log (GetAuthToken interactive) w)).

(** A truthy token. *)
Definition the_token (a : IdentityAnswer) : option string :=
  match token a with
  | Some t => if String.eqb t "" then None else Some t
  | None => None
  end.

(** [getAuthToken(interactive)] *)
Definition getAuthToken (interactive : bool) : M string :=
  a <- identity_getAuthToken interactive ;;
  match lastError a, the_token a with
  | None, Some t => ret t
  | Some (Some m), _ =>
      throw (Rejected (if String.eqb m "" then "Auth failed" else m))
  | _, _ => throw (Rejected "Auth failed")
  end.

(** [refreshToken()] *)
Definition refreshToken : M unit :=
  a <- identity_getAuthToken false ;;
  match the_token a with
  | Some t => modify (log (RemoveCachedAuthToken t))
  | None => ret tt
  end.

(** [fetch(url, { headers: { Authorization: `Bearer ${token}` } })] *)
Definition fetch (token : string) : M (Z * option JsValue) :=
  fun w =>
    let w' := count_fetch (log (Fetch token) w) in
    match fetch_answer host (fetch_calls w) token with
    | NoResponse => (Throw NetworkError, w')
    | Response status body => (Normal (status, body), w')
    end.

(** [res.ok] *)
Definition ok (status : Z) : bool := (200 <=? status) && (status <=? 299).

(** [fetchTodayEvents(token)] from the response on. *)
Definition fetchTodayEvents_response (status : Z) (body : option JsValue)
    : Completion (list Event) :=
  if status =? 401 then Throw (ErrorObj "UNAUTHORIZED")
  else if negb (ok status) then
    Throw (ErrorObj (String.append "Calendar API error: " (String_of_Z status)))
  else
    match body with
    | None => Throw SyntaxError
    | Some data =>
        (items <- get data "items" ;;
         match or_else items (JArr []) with
         | JArr l => map_filter normalize l
         | _ => Throw TypeError
         end)%completion
    end.

(** [fetchTodayEvents(token)] *)
Definition fetchTodayEvents (token : string) : M (list Event) :=
  res <- fetch token ;;
  lift (fetchTodayEvents_response (fst res) (snd res)).

(** [loadAndRender(token)] *)
Definition loadAndRender (token : string) : M unit :=
  evs <- try_catch (fetchTodayEvents token)
           (fun err =>
              if message_is err "UNAUTHORIZED" then
                refreshToken ;;;
                newToken <- getAuthToken false ;;
                fetchTodayEvents newToken
              else throw err) ;;
  modify (set_events evs) ;;;
  st <- gets storage ;;
  modify (set_completedIds (loadCompletedIds today st)) ;;;
  modify (applyCompletedIds now) ;;;
  render_run now ;;;
  modify (set_tickInterval true).

End Popup.

(** The body of the [setInterval] callback installed by [loadAndRender]:
    the variables it leaves. *)
Definition tick (now : Z) (today : LocalDate) (w : World) : World :=
  render now
    (applyCompletedIds now
       (set_completedIds (loadCompletedIds today (storage w)) w)).

(** ** An instance of the [Date] constructor *)

(** The provider writes [dateTime] as an RFC 3339 timestamp,
    [YYYY-MM-DDTHH:MM:SS] followed by [Z] or by [+HH:MM] / [-HH:MM].
    [Date_rfc3339] reads exactly these and answers Invalid Date to
    anything else; it serves the concrete runs below, the general
    statements hold for every constructor. *)
Module Rfc3339.

Definition digit (c : ascii) : option Z :=
  let n := Z.of_nat (nat_of_ascii c) in
  if (48 <=? n) && (n <=? 57) then Some (n - 48) else None.

Definition two (a b : ascii) : option Z :=
  match digit a, digit b with
  | Some x, Some y => Some (10 * x + y)
  | _, _ => None
  end.

Definition four (a b c d : ascii) : option Z :=
  match two a b, two c d with
  | Some x, Some y => Some (100 * x + y)
  | _, _ => None
  end.

Definition leap (y : Z) : bool :=
  ((y mod 4 =? 0) && negb (y mod 100 =? 0)) || (y mod 400 =? 0).

Definition days_in_month (y m : Z) : Z :=
  if m =? 2 then (if leap y then 29 else 28)
  else if (m =? 4) || (m =? 6) || (m =? 9) || (m =? 11) then 30
  else 31.

(** Days from 1970-01-01 to the civil date [y]-[m]-[d]. *)
Definition days_from_civil (y m d : Z) : Z :=
  let y' := if m <=? 2 then y - 1 else y in
  let era := y' / 400 in
  let yoe := y' - era * 400 in
  let doy := (153 * (if 2 <? m then m - 3 else m + 9) + 2) / 5 + d - 1 in
  let doe := yoe * 365 + yoe / 4 - yoe / 100 + doy in
  era * 146097 + doe - 719468.

(** The offset of the zone designator, in minutes east of UTC. *)
Definition zone (cs : list ascii) : option Z :=
  match cs with
  | ["Z"%char] => Some 0
  | [sign; h1; h2; ":"%char; m1; m2] =>
      match two h1 h2, two m1 m2 with
      | Some h, Some m =>
          if (h <=? 23) && (m <=? 59) then
            if Ascii.eqb sign "+" then Some (60 * h + m)
            else if Ascii.eqb sign "-" then Some (- (60 * h + m))
            else None
          else None
      | _, _ => None
      end
  | _ => None
  end.

Definition parse (s : string) : JSDate :=
  match list_ascii_of_string s with
  | y1 :: y2 :: y3 :: y4 :: "-"%char :: mo1 :: mo2 :: "-"%char :: d1 :: d2
      :: "T"%char :: h1 :: h2 :: ":"%char :: mi1 :: mi2 :: ":"%char
      :: s1 :: s2 :: rest =>
      match four y1 y2 y3 y4, two mo1 mo2, two d1 d2,
            two h1 h2, two mi1 mi2, two s1 s2, zone rest with
      | Some y, Some mo, Some d, Some h, Some mi, Some sec, Some off =>
          if (1 <=? mo) && (mo <=? 12) && (1 <=? d) && (d <=? days_in_month y mo)
             && (h <=? 23) && (mi <=? 59) && (sec <=? 59)
          then TimeValue
                 (days_from_civil y mo d * 86400000
                  + (h * 60 + mi - off) * 60000 + sec * 1000)
          else InvalidDate
      | _, _, _, _, _, _, _ => InvalidDate
      end
  | _ => InvalidDate
  end.

End Rfc3339.

Definition Date_rfc3339 (v : JsValue) : JSDate :=
  match v with
  | JStr s => Rfc3339.parse s
  | _ => InvalidDate
  end.

(** ** Sample data for the concrete runs *)

Definition timed (i summary startDT endDT : string) : JsValue :=
  JObj [("id", JStr i); ("summary", JStr summary);
        ("start", JObj [("dateTime", JStr startDT)]);
        ("end", JObj [("dateTime", JStr endDT)])].

Definition ev (i : string) (s e : Z) : Event :=
  {| id := JStr i; title := JStr i;
     start := TimeValue s; end_ := TimeValue e;
     color := JUndefined; description := JUndefined; location := JUndefined;
     _manuallyCompleted := false |}.

(** One call of [updateStreak] a day, over a run of days (each with the
    day before it), from a given storage: the answers and the storage
    left at the end. *)
Fixpoint updateStreak_on (days : list (LocalDate * LocalDate)) (st : Storage)
    : list Z * Storage :=
  match days with
  | [] => ([], st)
  | (today, yesterday) :: rest =>
      let '(n, st') := updateStreak today yesterday st in
      let '(ns, st'') := updateStreak_on rest st' in
      (n :: ns, st'')
  end.

(** A provider that answers 401 to every request, and an identity
    service that hands out the cached token [t0] first and [t1] after. *)
Definition host_always_401 : Host :=
  {| identity_answer := fun n _ =>
       {| token := Some (match n with O => "t0" | _ => "t1" end);
          lastError := None |};
     fetch_answer := fun _ _ => Response 401 None |}.

Definition fresh_world : World :=
  {| identity_calls := 0; fetch_calls := 0; trace := [];
     storage := {| streak := None; streakLastDate := None; completed := [] |};
     events := []; completedIds := [];
     classified := {| current := None; next := None; upcoming := []; past := [] |};
     tickInterval := false |}.

(** The day of section 8 of the specification, in milliseconds from
    midnight: 09:00-09:30, 09:30-10:15 and 11:00-11:30. *)
Definition sample_day : list Event :=
  [ev "a" 32400000 34200000; ev "b" 34200000 36900000; ev "c" 39600000 41400000].

(** The popup holding that day, with event [b] marked complete. *)
Definition sample_world : World :=
  {| identity_calls := 0; fetch_calls := 0; trace := [];
     storage := {| streak := None; streakLastDate := None; completed := [] |};
     events := sample_day; completedIds := [JStr "b"];
     classified := {| current := None; next := None; upcoming := []; past := [] |};
     tickInterval := false |}.

(** ** Vocabulary of the statements *)

(** The invariant of a canonical event: [start < end], which also says
    that both are valid instants. *)
Definition canonical (e : Event) : Prop := (start e <? end_ e)%date = true.

(** Ascending start order, as [orderBy=startTime] delivers it. *)
Definition start_le (a b : Event) : Prop := (start a <=? start b)%date = true.

(** [a <= b] for two dates that may be invalid: the same date, or a
    strictly earlier instant. *)
Definition date_le (a b : JSDate) : Prop := a = b \/ (a <? b)%date = true.


(** A raw event of the background and an event of the popup are the same
    event when the second is the normal form of the first. *)
Definition same_event (Date_new : JsValue -> JSDate)
    (raw : JsValue) (e : Event) : Prop :=
  normalizeEvent Date_new raw = Normal (Some e).

Definition same_choice (Date_new : JsValue -> JSDate)
    (raw : option JsValue) (e : option Event) : Prop :=
  match raw, e with
  | Some r, Some e => same_event Date_new r e
  | None, None => True
  | _, _ => False
  end.

(** The token that [getAuthToken] resolves to on a given answer, if it
    resolves. *)
Definition resolved (a : IdentityAnswer) : option string :=
  match lastError a with
  | None => the_token a
  | Some _ => None
  end.

(** The calls of one invalidate / reacquire / retry cycle, given the two
    answers of the identity service: [refreshToken] asks for the cached
    token and removes it if there is one, [getAuthToken(false)] asks
    again, and the fetch is repeated if that gave a token. *)
Definition retry_cycle (refresh reacquire : IdentityAnswer) : list Call :=
  GetAuthToken false
  :: match the_token refresh with
     | Some t => [RemoveCachedAuthToken t]
     | None => []
     end
  ++ GetAuthToken false
  :: match resolved reacquire with
     | Some newToken => [Fetch newToken]
     | None => []
     end.

(** What [fetchTodayEvents] settles to on a given answer of the provider. *)
Definition settles (norm : JsValue -> Completion (option Event))
    (a : HttpAnswer) : Completion (list Event) :=
  match a with
  | NoResponse => Throw NetworkError
  | Response status body => fetchTodayEvents_response norm status body
  end.

(** The fetch fails with the error UNAUTHORIZED exactly when the status
    of the response is 401. *)
Definition unauthorized_iff_401 (host : Host)
    (norm : JsValue -> Completion (option Event)) : Prop :=
  forall (token : string) (w : World),
    fst (fetchTodayEvents host norm token w) = Throw (ErrorObj "UNAUTHORIZED")
    <-> exists body, fetch_answer host (fetch_calls w) token = Response 401 body.

(** The first half of [loadAndRender]: the [try] around the first fetch
    and its [catch]. *)
Definition first_attempt (host : Host)
    (norm : JsValue -> Completion (option Event)) (token : string)
    : M (list Event) :=
  try_catch (fetchTodayEvents host norm token)
    (fun err =>
       if message_is err "UNAUTHORIZED" then
         bind (refreshToken host)
           (fun _ => bind (getAuthToken host false)
                       (fun newToken => fetchTodayEvents host norm newToken))
       else throw err).

(** The second half: what [loadAndRender] does once the events are
    there.  The timer is set only if [render()] returned. *)
Definition show_events (now : Z) (today : LocalDate) (evs : list Event)
    (w : World) : Completion unit * World :=
  let w1 := set_events evs w in
  let w2 := set_completedIds (loadCompletedIds today (storage w1)) w1 in
  let w3 := render now (applyCompletedIds now w2) in
  if render_returns (classified w3) then (Normal tt, set_tickInterval true w3)
  else (Throw TypeError, w3).

(** ** The rest of the scripts *)

(** What the getters of a [Date] give for the month and the day. *)
Definition valid_day (d : LocalDate) : Prop :=
  0 <= getMonth d <= 11 /\ 1 <= getDate d <= 31.

(** The numbers that a month (plus one) or a day of the month can be. *)
Definition two_digits : list Z := map Z.of_nat (seq 1 31).

(** *** popup.js: saving and removing completed ids *)

(** [set.add(v)] and [set.delete(v)] *)
Definition Set_add (s : JsSet) (v : JsValue) : JsSet :=
  if has s v then s else s ++ [v].

(** A set holds a value once, so deleting it is leaving it out. *)
Definition Set_delete (s : JsSet) (v : JsValue) : JsSet :=
  filter (fun x => negb (sameValueZero v x)) s.

(** [chrome.storage.local.set({ [key]: value })] on the lists of
    completed ids: the entry of [key] is replaced, or added. *)
Fixpoint assoc_set {A} (k : string) (v : A) (l : list (string * A))
    : list (string * A) :=
  match l with
  | [] => [(k, v)]
  | (k', v') :: rest =>
      if String.eqb k k' then (k, v) :: rest else (k', v') :: assoc_set k v rest
  end.

Definition set_completed (key : string) (ids : list JsValue) (st : Storage)
    : Storage :=
  {| streak := streak st; streakLastDate := streakLastDate st;
     completed := assoc_set key ids (completed st) |}.

Section CompletedIds.

(** What the storage area keeps of an array element it is given: the
    area holds JSON, so this is the host's business, like [Date]. *)
Variable stored : JsValue -> JsValue.

Variable today : LocalDate.

(** [saveCompletedId(eventId)] *)
Definition saveCompletedId (eventId : JsValue) (st : Storage) : Storage :=
  let key := String.append "completed_" (todayKey today) in
  let existing := Set_add (loadCompletedIds today st) eventId in
  set_completed key (map stored existing) st.

(** [removeCompletedId(eventId)] *)
Definition removeCompletedId (eventId : JsValue) (st : Storage) : Storage :=
  let key := String.append "completed_" (todayKey today) in
  let existing := Set_delete (loadCompletedIds today st) eventId in
  set_completed key (map stored existing) st.

End CompletedIds.

(** An instance: the JSON form of a value ([None]: the value has none,
    as [undefined] and the numbers that are not finite); inside an array
    such a value becomes [null], inside an object its property is
    dropped. *)
Fixpoint json_value (v : JsValue) : option JsValue :=
  match v with
  | JUndefined => None
  | JNum n => match n with
              | S754_nan | S754_infinity _ => None
              | _ => Some v
              end
  | JArr items =>
      Some (JArr (map (fun x => match json_value x with
                                | Some y => y
                                | None => JNull
                                end) items))
  | JObj props =>
      Some (JObj (flat_map (fun p => let '(k, x) := p in
                                     match json_value x with
                                     | Some y => [(k, y)]
                                     | None => []
                                     end) props))
  | _ => Some v
  end.

Definition json_element (v : JsValue) : JsValue :=
  match json_value v with
  | Some y => y
  | None => JNull
  end.

(** The ids that the storage holds for the day. *)
Definition stored_ids (today : LocalDate) (st : Storage) : list JsValue :=
  match assoc (String.append "completed_" (todayKey today)) (completed st) with
  | Some ids => ids
  | None => []
  end.

(** The storage area keeps strings as they are. *)
Definition keeps_strings (stored : JsValue -> JsValue) : Prop :=
  forall s, stored (JStr s) = JStr s.

(** A storage that holds the ids [a] and [b] for 2024-03-01. *)
Definition sample_day_1 : LocalDate :=
  {| getFullYear := 2024; getMonth := 2; getDate := 1 |}.

Definition sample_storage : Storage :=
  {| streak := Some 3; streakLastDate := Some "2024-02-29";
     completed := [("completed_2024-02-29", [JStr "z"]);
                   ("completed_2024-03-01", [JStr "a"; JStr "b"])] |}.

(** No two elements of the list are the same value. *)
Fixpoint distinct (l : JsSet) : bool :=
  match l with
  | [] => true
  | x :: rest => negb (has rest x) && distinct rest
  end.

(** *** popup.js: the minutes, and the count on the expand button *)

Definition num_add : Number -> Number -> Number := SFadd prec emax.

(** [Math.round]: the nearest integer, the larger one of two that are
    equally near; zeros, infinities and NaN are returned as they are, and
    a negative number that rounds to zero gives [-0]. *)
Definition Math_round (x : Number) : Number :=
  match x with
  | S754_finite s m e =>
      if 0 <=? e then x
      else
        let scale := 2 ^ (- e) in
        let q := Z.pos m / scale in
        let r := Z.pos m mod scale in
        let n := if s then (if scale <? 2 * r then q + 1 else q)
                 else (if scale <=? 2 * r then q + 1 else q) in
        if n =? 0 then S754_zero s
        else Number_of_Z (if s then - n else n)
  | _ => x
  end.

(** [minutesUntil(date, now)] *)
Definition minutesUntil (date now : JSDate) : Number :=
  Math_max (Number_of_Z 0)
    (Math_round (num_div (num_sub (valueOf date) (valueOf now))
                         (Number_of_Z 60000))).

(** [minutesLeft(event, now)] *)
Definition minutesLeft (event : Event) (now : JSDate) : Number :=
  Math_max (Number_of_Z 0)
    (Math_round (num_div (num_sub (valueOf (end_ event)) (valueOf now))
                         (Number_of_Z 60000))).

(** [hidden] in [render()]: the events that neither card shows. *)
Definition hidden (w : World) : Z :=
  let total := Z.of_nat (List.length (events w)) in
  let shown := (match current (classified w) with Some _ => 1 | None => 0 end)
               + (match next (classified w) with Some _ => 1 | None => 0 end) in
  total - shown.

(** *** popup.js: the start of the popup *)

(** [s.includes(sub)] *)
Fixpoint includes (s sub : string) : bool :=
  String.prefix sub s
  || match s with
     | EmptyString => false
     | String _ rest => includes rest sub
     end.

(** The two error screens of [showError]. *)
Inductive ErrorKind : Type :=
| sign_in
| general.

Definition set_storage (st : Storage) (w : World) : World :=
  {| identity_calls := identity_calls w; fetch_calls := fetch_calls w;
     trace := trace w; storage := st; events := events w;
     completedIds := completedIds w; classified := classified w;
     tickInterval := tickInterval w |}.

Section Start.

Variable host : Host.
Variable normalize : JsValue -> Completion (option Event).

(** The text of an error that the engine raised itself (its name and its
    own message). *)
Variable engine_text : Thrown -> string.

Variable now : Z.
Variables today yesterday : LocalDate.

(** [err.toString()] *)
Definition toString (err : Thrown) : string :=
  match err with
  | ErrorObj message =>
      if String.eqb message "" then "Error"
      else String.append "Error: " message
  | Rejected reason => reason
  | _ => engine_text err
  end.

(** The argument of [showError] in the handler of [popup.js]:
    [err?.toString?.().includes('Auth') ? 'sign-in' : 'general']. *)
Definition error_kind (err : Thrown) : ErrorKind :=
  if includes (toString err) "Auth" then sign_in else general.

(** The test of the older popup:
    [err === 'UNAUTHORIZED' || err?.includes?.('Auth')]; only a thrown
    string has [includes]. *)
Definition error_kind_old (err : Thrown) : ErrorKind :=
  match err with
  | Rejected reason =>
      if String.eqb reason "UNAUTHORIZED" || includes reason "Auth"
      then sign_in else general
  | _ => general
  end.

(** The [DOMContentLoaded] handler of [popup.js], without the DOM: the
    streak it shows, the error screen it ends on if any, and the world it
    leaves. *)
Definition DOMContentLoaded (w : World) : (Z * option ErrorKind) * World :=
  let '(streak, st) := updateStreak today yesterday (storage w) in
  let w1 := set_storage st w in
  match bind (getAuthToken host true)
             (fun token => loadAndRender host normalize now today token) w1 with
  | (Normal _, w2) => ((streak, None), w2)
  | (Throw err, w2) => ((streak, Some (error_kind err)), w2)
  end.

End Start.

(** *** background.js: the badge *)

Inductive BadgeText : Type :=
| NoText                       (* '' *)
| MinutesText (n : Number).    (* n + 'm' *)

Inductive BadgeCall : Type :=
| SetBadgeText (text : BadgeText)
| SetBadgeBackgroundColor (color : string)
| CreateNotification (message : JsValue).

(** A computation of the worker: the calls it has made so far, and how it
    went on. *)
Definition Eff (A : Type) : Type := list BadgeCall * Completion A.

Definition bindE {A B} (m : Eff A) (k : A -> Eff B) : Eff B :=
  match m with
  | (calls, Normal a) => let '(calls', r) := k a in (calls ++ calls', r)
  | (calls, Throw e) => (calls, Throw e)
  end.

Definition call (c : BadgeCall) : Eff unit := ([c], Normal tt).

Definition pure {A} (c : Completion A) : Eff A := ([], c).

Declare Scope eff_scope.
Delimit Scope eff_scope with eff.
Notation "x <- c ;; k" := (bindE c (fun x => k))
  (at level 61, c at next level, right associativity) : eff_scope.
Notation "c ;;; k" := (bindE c (fun _ => k))
  (at level 61, right associativity) : eff_scope.

(** [getTokenSilent()]: [lastError ? null : token], then the test
    [!token] of [updateBadge]. *)
Definition getTokenSilent (a : IdentityAnswer) : option string :=
  match lastError a with
  | Some _ => None
  | None => the_token a
  end.

(** [fetchEvents(token)], from the answer on. *)
Definition fetchEvents (http : HttpAnswer) : Completion (list JsValue) :=
  match http with
  | NoResponse => Throw NetworkError
  | Response status body =>
      if negb (ok status) then Normal []
      else match body with
           | None => Throw SyntaxError
           | Some data => Background.fetchEvents_items data
           end
  end.

(** [Math.round((a - b) / 60000)] *)
Definition minutes_between (a b : JSDate) : Number :=
  Math_round (num_div (num_sub (valueOf a) (valueOf b)) (Number_of_Z 60000)).

(** [if (x)] on what [find] returned. *)
Definition found (x : option JsValue) : option JsValue :=
  match x with
  | Some v => if truthy v then Some v else None
  | None => None
  end.

Section UpdateBadge.

Variable Date_new : JsValue -> JSDate.
Variable now : JSDate.

Local Open Scope eff_scope.

(** The [try] block of [updateBadge], once the token is there. *)
Definition updateBadge_try (http : HttpAnswer) : Eff unit :=
  events <- pure (fetchEvents http) ;;
  sel <- pure (Background.updateBadge_select Date_new now events) ;;
  match found (fst sel) with
  | Some current =>
      current_end <- pure (get current "end") ;;
      endDT <- pure (get current_end "dateTime") ;;
      let minsLeft := minutes_between (Date_new endDT) now in
      call (SetBadgeText (MinutesText minsLeft)) ;;;
      call (SetBadgeBackgroundColor "#c9b8f0")
  | None =>
      match found (snd sel) with
      | Some next =>
          next_start <- pure (get next "start") ;;
          startDT <- pure (get next_start "dateTime") ;;
          let minsUntil := minutes_between (Date_new startDT) now in
          if SFleb minsUntil (Number_of_Z 15) then
            call (SetBadgeText (MinutesText minsUntil)) ;;;
            call (SetBadgeBackgroundColor "#f5c4a8") ;;;
            if SFeqb minsUntil (Number_of_Z 5) then
              summary <- pure (get next "summary") ;;
              call (CreateNotification (or_else summary (JStr "(no title)")))
            else pure (Normal tt)
          else call (SetBadgeText NoText)
      | None => call (SetBadgeText NoText)
      end
  end.

(** [updateBadge()]: the calls it makes on the badge and the
    notifications, given what the identity service and the provider
    answer. *)
Definition updateBadge (identity : IdentityAnswer) (http : HttpAnswer)
    : list BadgeCall :=
  match getTokenSilent identity with
  | None => [SetBadgeText NoText]
  | Some token =>
      match updateBadge_try http with
      | (calls, Normal _) => calls
      | (calls, Throw _) => calls ++ [SetBadgeText NoText]
      end
  end.

End UpdateBadge.

(** *** popup.js: the day's progress *)

(** [pct] in [renderDayProgress(now)] of [popup.js], from
    [now.getHours()] and [now.getMinutes()]. *)
Definition dayProgress (hours minutes : Z) : Number :=
  let mins := num_add (num_mul (Number_of_Z hours) (Number_of_Z 60))
                      (Number_of_Z minutes) in
  Math_min (Number_of_Z 100)
    (Math_max (Number_of_Z 0)
       (num_mul (num_div mins (Number_of_Z 1440)) (Number_of_Z 100))).

(** The same in the older popup: a window from 6 am to 10 pm. *)
Definition dayProgress_old (hours minutes : Z) : Number :=
  let mins := num_add (num_mul (Number_of_Z hours) (Number_of_Z 60))
                      (Number_of_Z minutes) in
  Math_min (Number_of_Z 100)
    (Math_max (Number_of_Z 0)
       (num_mul (num_div (num_sub mins (Number_of_Z 360)) (Number_of_Z 960))
                (Number_of_Z 100))).

(** The minutes of a day, as hours and minutes. *)
Definition clock_times : list (Z * Z) :=
  flat_map (fun h => map (fun m => (Z.of_nat h, Z.of_nat m)) (seq 0 60)) (seq 0 24).

(** A host whose provider answers with the three events of the sample
    day, on 2024-01-01. *)
Definition host_sample : Host :=
  {| identity_answer := fun _ _ => {| token := Some "t0"; lastError := None |};
     fetch_answer := fun _ _ =>
       Response 200
         (Some (JObj [("items",
            JArr [timed "a" "Maths" "2024-01-01T09:00:00Z" "2024-01-01T09:30:00Z";
                  timed "b" "Essay" "2024-01-01T09:30:00Z" "2024-01-01T10:15:00Z";
                  timed "c" "Lunch" "2024-01-01T11:00:00Z" "2024-01-01T11:30:00Z"])])) |}.

(** The reason [getAuthToken] rejects with, on an answer it does not
    resolve: [lastError?.message || 'Auth failed']. *)
Definition rejection_reason (a : IdentityAnswer) : string :=
  match lastError a with
  | Some (Some m) => if String.eqb m "" then "Auth failed" else m
  | _ => "Auth failed"
  end.

(** An identity service that refuses the interactive request. *)
Definition host_denied : Host :=
  {| identity_answer := fun _ _ =>
       {| token := None;
          lastError := Some (Some "The user did not approve access.") |};
     fetch_answer := fun _ _ => NoResponse |}.

(** The texts that a run puts on the badge, in order. *)
Definition texts_set (calls : list BadgeCall) : list BadgeText :=
  flat_map (fun c => match c with SetBadgeText t => [t] | _ => [] end) calls.

(** The same double, bit for bit. *)
Definition same_number (x y : Number) : bool :=
  match x, y with
  | S754_zero a, S754_zero b => Bool.eqb a b
  | S754_infinity a, S754_infinity b => Bool.eqb a b
  | S754_nan, S754_nan => true
  | S754_finite a m e, S754_finite b m' e' =>
      Bool.eqb a b && Pos.eqb m m' && Z.eqb e e'
  | _, _ => false
  end.

(** The percentage of the day that has passed at minute [t], rounded to
    the nearest integer with halves up, in exact arithmetic. *)
Definition day_percent (t : Z) : Z := (200 * t + 1440) / 2880.

(** The same for the window from 6 am (minute 360) to 10 pm (minute
    1320) of the older popup. *)
Definition window_percent (t : Z) : Z :=
  Z.min 100 (Z.max 0 ((200 * (t - 360) + 960) / 1920)).

(** What the popups show: the exact percentage, but for the one minute at
    which it is 57.5 and the product in doubles, 57.49999999999999, falls
    below the half. *)
Definition day_percent_shown (t : Z) : Z :=
  if t =? 828 then 57 else day_percent t.

Definition window_percent_shown (t : Z) : Z :=
  if t =? 912 then 57 else window_percent t.

(** * Properties *)

Example parse_2024_01_01_10h :
  Rfc3339.parse "2024-01-01T10:00:00Z" = TimeValue 1704103200000.
Proof. vm_compute. reflexivity. Qed.

Example parse_offset :
  Rfc3339.parse "2024-03-01T09:00:00-08:00" = TimeValue 1709312400000.
Proof. vm_compute. reflexivity. Qed.

Example parse_garbage : Rfc3339.parse "TBD" = InvalidDate.
Proof. reflexivity. Qed.

Example dayKey_2024_03_05 :
  dayKey {| getFullYear := 2024; getMonth := 2; getDate := 5 |} = "2024-03-05".
Proof. vm_compute. reflexivity. Qed.

Example progress_halfway :
  eventProgress (ev "a" 1000 3000) (TimeValue 2000) = Number_of_Z 50.
Proof. vm_compute. reflexivity. Qed.

(** ** Classification *)

Lemma hd_tl_opt_list {A} (l : list A) : opt_list (hd_error l) ++ tl l = l.
Proof. destruct l; reflexivity. Qed.

Lemma find_hd_filter {A} (p : A -> bool) (l : list A) :
  find p l = hd_error (filter p l).
Proof.
  induction l as [|a l IH]; simpl; [reflexivity|].
  destruct (p a); simpl; auto.
Qed.

Lemma opt_list_hd_short {A} (l : list A) :
  (List.length l <= 1)%nat -> opt_list (hd_error l) = l.
Proof.
  destruct l as [|a [|b l]]; simpl; intros H; try reflexivity; lia.
Qed.

(** A canonical event answers exactly one of the three tests. *)
Lemma canonical_trichotomy (t : Z) (e : Event) :
  canonical e ->
  let now := TimeValue t in
  (is_past now e = true /\ is_current now e = false /\ is_future now e = false)
  \/ (is_past now e = false /\ is_current now e = true /\ is_future now e = false)
  \/ (is_past now e = false /\ is_current now e = false /\ is_future now e = true).
Proof.
  unfold canonical, is_past, is_current, is_future, date_gtb, date_ltb, date_leb.
  destruct (start e) as [s|], (end_ e) as [f|]; try discriminate.
  intros H; simpl.
  apply Z.ltb_lt in H.
  destruct (Z.leb_spec f t), (Z.leb_spec s t), (Z.ltb_spec t f), (Z.ltb_spec t s);
    simpl; try lia; auto.
Qed.

Lemma three_filters_perm {A} (f g h : A -> bool) (l : list A) :
  Forall (fun a => (f a = true /\ g a = false /\ h a = false)
                   \/ (f a = false /\ g a = true /\ h a = false)
                   \/ (f a = false /\ g a = false /\ h a = true)) l ->
  Permutation (filter f l ++ filter g l ++ filter h l) l.
Proof.
  induction 1 as [|a l Ha _ IH]; simpl; [constructor|].
  destruct Ha as [(-> & -> & ->) | [(-> & -> & ->) | (-> & -> & ->)]]; simpl.
  - now constructor.
  - symmetry. apply Permutation_cons_app. now symmetry.
  - symmetry. rewrite app_assoc. apply Permutation_cons_app.
    rewrite <- app_assoc. now symmetry.
Qed.

(** The buckets of canonical events of which at most one is running hold
    every event once, whatever the order of the list. *)
Lemma classifyEvents_buckets_perm (t : Z) (events : list Event) :
  Forall canonical events ->
  (List.length (filter (is_current (TimeValue t)) events) <= 1)%nat ->
  Permutation (buckets (classifyEvents (TimeValue t) events)) events.
Proof.
  intros Hc Hone. unfold buckets, classifyEvents; simpl.
  rewrite hd_tl_opt_list, find_hd_filter, (opt_list_hd_short _ Hone).
  apply three_filters_perm.
  eapply Forall_impl; [|exact Hc].
  intros e He. exact (canonical_trichotomy t e He).
Qed.

(** [find] answers the first element that passes the test. *)
Lemma find_first {A} (p : A -> bool) (l : list A) (a : A) :
  find p l = Some a
  <-> exists before after,
        l = before ++ a :: after /\ p a = true
        /\ Forall (fun b => p b = false) before.
Proof.
  induction l as [|x l IH]; simpl.
  - split; [discriminate|]. intros (before & after & H & _).
    destruct before; discriminate H.
  - destruct (p x) eqn:E.
    + split.
      * intros H. injection H as <-. exists [], l. repeat split; auto.
      * intros (before & after & H & Ha & Hb).
        destruct before as [|b before]; simpl in H.
        -- injection H as -> _. reflexivity.
        -- injection H as -> _. inversion Hb; congruence.
    + rewrite IH. split.
      * intros (before & after & -> & Ha & Hb).
        exists (x :: before), after. repeat split; auto.
      * intros (before & after & H & Ha & Hb).
        destruct before as [|b before]; simpl in H.
        -- injection H as -> _. congruence.
        -- injection H as -> ->. inversion Hb; subst.
           exists before, after. repeat split; auto.
Qed.

Lemma current_iff_running (now : JSDate) (events : list Event) :
  current (classifyEvents now events) <> None
  <-> Exists (fun e => is_current now e = true) events.
Proof.
  unfold classifyEvents; simpl. split.
  - destruct (find (is_current now) events) as [e|] eqn:E; [intros _|congruence].
    apply find_some in E. apply Exists_exists. exists e. exact E.
  - intros H. apply Exists_exists in H. destruct H as (e & Hin & He).
    destruct (find (is_current now) events) eqn:E; [discriminate|].
    rewrite (find_none _ _ E e Hin) in He. discriminate.
Qed.

(** The sample day read at 09:45. *)
Example classifyEvents_sample_day :
  classifyEvents (TimeValue 35100000) sample_day
  = {| current := Some (ev "b" 34200000 36900000);
       next := Some (ev "c" 39600000 41400000);
       upcoming := [];
       past := [ev "a" 32400000 34200000] |}.
Proof. reflexivity. Qed.

(** C1, as amended.  For every event list and every time [now],
    [current] is non-null if and only if some event of the list satisfies
    [start <= now < end], and it is then the first such event of the
    list.  For every list of canonical events ([start < end]) sorted by
    start ascending in which at most one event satisfies
    [start <= now < end], the four buckets of [classifyEvents] together
    hold every input event exactly once. *)
Theorem classifyEvents_partition (t : Z) (events : list Event) :
  let now := TimeValue t in
  let c := classifyEvents now events in
  (current c <> None <-> Exists (fun e => is_current now e = true) events)
  /\ (forall e, current c = Some e <->
        exists before after,
          events = before ++ e :: after
          /\ is_current now e = true
          /\ Forall (fun b => is_current now b = false) before)
  /\ (Sorted start_le events ->
      Forall canonical events ->
      (List.length (filter (is_current now) events) <= 1)%nat ->
      Permutation (buckets c) events).
Proof.
  intros now c. split; [|split].
  - exact (current_iff_running now events).
  - intros e. exact (find_first (is_current now) events e).
  - intros _ Hc Hone. exact (classifyEvents_buckets_perm t events Hc Hone).
Qed.

Lemma classifyEvents_partition_witness :
  let events := [ev "a" 32400000 34200000; ev "b" 34200000 36900000;
                 ev "c" 39600000 41400000] in
  let c := classifyEvents (TimeValue 35100000) events in
  (current c <> None
   <-> Exists (fun e => is_current (TimeValue 35100000) e = true) events)
  /\ Permutation (buckets c) events.
Proof.
  intros events c.
  destruct (classifyEvents_partition 35100000 events) as (Hiff & _ & Hperm).
  split; [exact Hiff|].
  apply Hperm.
  - repeat constructor.
  - repeat constructor.
  - simpl. lia.
Defined.

(** C1 as stated fails on two events that overlap [now]: the list is
    sorted and canonical, yet the later-starting event is in no bucket. *)
Lemma classifyEvents_overlap_unplaced :
  let a := ev "a" 32400000 36000000 in
  let b := ev "b" 34200000 37800000 in
  let c := classifyEvents (TimeValue 35100000) [a; b] in
  Sorted start_le [a; b] /\ Forall canonical [a; b]
  /\ In b [a; b] /\ ~ In b (buckets c).
Proof.
  repeat split.
  - repeat constructor.
  - repeat constructor.
  - right; left; reflexivity.
  - simpl. intros [H | []]. discriminate H.
Qed.

(** An event that is not canonical can be placed twice: with
    [end <= now < start] it is both [next] and in [past]. *)
Example classifyEvents_reversed_twice :
  let r := ev "r" 36000000 32400000 in
  let c := classifyEvents (TimeValue 35100000) [r] in
  next c = Some r /\ past c = [r].
Proof. split; reflexivity. Qed.

(** An event whose dates are invalid is placed nowhere. *)
Example classifyEvents_invalid_unplaced :
  let e := {| id := JStr "e1"; title := JStr "Dentist";
              start := InvalidDate; end_ := InvalidDate;
              color := JUndefined; description := JUndefined;
              location := JUndefined; _manuallyCompleted := false |} in
  buckets (classifyEvents (TimeValue 35100000) [e]) = [].
Proof. reflexivity. Qed.

(** ** The completion overrides *)

(** Marking [b] complete at 09:45 ends it at 09:45; read again at 09:46 it
    is past, and nothing is current until [c] starts. *)
Example applyCompletedIds_sample :
  let w := applyCompletedIds 35100000 sample_world in
  events w = [ev "a" 32400000 34200000;
              {| id := JStr "b"; title := JStr "b";
                 start := TimeValue 34200000; end_ := TimeValue 35100000;
                 color := JUndefined; description := JUndefined;
                 location := JUndefined; _manuallyCompleted := true |};
              ev "c" 39600000 41400000]
  /\ current (classifyEvents (TimeValue 35160000) (events w)) = None
  /\ next (classifyEvents (TimeValue 35160000) (events w))
     = Some (ev "c" 39600000 41400000)
  /\ List.length (past (classifyEvents (TimeValue 35160000) (events w))) = 2%nat.
Proof. repeat split. Qed.

Lemma date_le_valid (a b : Z) : date_le (TimeValue a) (TimeValue b) <-> a <= b.
Proof.
  unfold date_le; simpl. split.
  - intros [H | H]; [injection H; lia | apply Z.ltb_lt in H; lia].
  - intros H. destruct (Z.eq_dec a b) as [-> | Hne]; [now left|].
    right. apply Z.ltb_lt. lia.
Qed.

(** What the callback does to one event. *)
Lemma applyCompletedIds_each_cases (ids : JsSet) (now : Z) (e : Event) :
  (has ids (id e) && (end_ e >? TimeValue now)%date = false
   /\ applyCompletedIds_each ids now e = e)
  \/ (exists t, has ids (id e) = true /\ end_ e = TimeValue t /\ now < t
      /\ applyCompletedIds_each ids now e
         = {| id := id e; title := title e; start := start e;
              end_ := TimeValue now; color := color e;
              description := description e; location := location e;
              _manuallyCompleted := true |}).
Proof.
  unfold applyCompletedIds_each.
  destruct (has ids (id e) && (end_ e >? TimeValue now)%date) eqn:E.
  - right. apply andb_true_iff in E. destruct E as [Hh Hgt].
    unfold date_gtb, date_ltb in Hgt.
    destruct (end_ e) as [t|]; [|discriminate].
    apply Z.ltb_lt in Hgt. exists t. repeat split; auto.
    simpl. rewrite Z.min_r by lia. reflexivity.
  - left. split; reflexivity.
Qed.

(** Case analysis on the guard of the callback, for the event [e]. *)
Ltac each_cases ids now e :=
  let Hguard := fresh "Hguard" in
  let Heq := fresh "Heq" in
  let t := fresh "t" in
  let Hhas := fresh "Hhas" in
  let Hend := fresh "Hend" in
  let Hlt := fresh "Hlt" in
  destruct (applyCompletedIds_each_cases ids now e)
    as [[Hguard Heq] | (t & Hhas & Hend & Hlt & Heq)].

Lemma applyCompletedIds_each_idem (ids : JsSet) (now : Z) (e : Event) :
  applyCompletedIds_each ids now (applyCompletedIds_each ids now e)
  = applyCompletedIds_each ids now e.
Proof.
  each_cases ids now e.
  - rewrite Heq. exact Heq.
  - rewrite Heq. unfold applyCompletedIds_each; simpl.
    unfold date_gtb; simpl. rewrite Z.ltb_irrefl, andb_false_r. reflexivity.
Qed.

Lemma Forall2_map_self {A} (R : A -> A -> Prop) (f : A -> A) (l : list A) :
  (forall a, R a (f a)) -> Forall2 R l (map f l).
Proof. intros H. induction l; simpl; constructor; auto. Qed.

(** C2.  Running [applyCompletedIds] a second time with the same events,
    the same set of completed ids and the same [now] changes nothing: the
    result is the one of the first run. *)
Theorem applyCompletedIds_idempotent (now : Z) (w : World) :
  applyCompletedIds now (applyCompletedIds now w) = applyCompletedIds now w.
Proof.
  unfold applyCompletedIds, set_events; simpl.
  rewrite map_map. f_equal.
  apply map_ext. intros e. apply applyCompletedIds_each_idem.
Qed.

(** C3.  After [applyCompletedIds] the end of every event is at or before
    its original end, and an event whose original end is [<= now] is left
    exactly as it was, whether or not its id is in the set, and is still
    classified as past at [now]. *)
Theorem applyCompletedIds_monotone (now : Z) (w : World) :
  Forall2 (fun e e' =>
             date_le (end_ e') (end_ e)
             /\ ((end_ e <=? TimeValue now)%date = true -> e' = e))
          (events w) (events (applyCompletedIds now w))
  /\ (forall e, In e (events w) ->
        (end_ e <=? TimeValue now)%date = true ->
        In e (past (classifyEvents (TimeValue now)
                      (events (applyCompletedIds now w))))).
Proof.
  assert (Hstay : forall e, (end_ e <=? TimeValue now)%date = true ->
                            applyCompletedIds_each (completedIds w) now e = e).
  { intros e Hpast. each_cases (completedIds w) now e; [exact Heq|].
    rewrite Hend in Hpast. simpl in Hpast. apply Z.leb_le in Hpast. lia. }
  split.
  - unfold applyCompletedIds; simpl. apply Forall2_map_self. intros e. split.
    + each_cases (completedIds w) now e; rewrite Heq.
      * now left.
      * simpl. rewrite Hend. apply date_le_valid. lia.
    + exact (Hstay e).
  - intros e Hin Hpast. unfold applyCompletedIds, classifyEvents; simpl.
    apply filter_In. split; [|exact Hpast].
    apply in_map_iff. exists e. split; [exact (Hstay e Hpast) | exact Hin].
Qed.

(** C10.  [applyCompletedIds] assigns to none of the module's variables
    and changes, of the events, only [end] and [_manuallyCompleted], and
    only of events whose id is in the set and whose end is [> now]: every
    other event is identical afterwards, and so are [id], [title] and
    [start] (and the other properties) of every event.  The set of
    completed ids, the storage and the timer are as they were. *)
Theorem applyCompletedIds_frame (now : Z) (w : World) :
  let w' := applyCompletedIds now w in
  (completedIds w' = completedIds w /\ storage w' = storage w
   /\ tickInterval w' = tickInterval w /\ trace w' = trace w)
  /\ Forall2 (fun e e' =>
                id e' = id e /\ title e' = title e /\ start e' = start e
                /\ color e' = color e /\ description e' = description e
                /\ location e' = location e
                /\ (has (completedIds w) (id e)
                    && (end_ e >? TimeValue now)%date = false -> e' = e))
             (events w) (events w').
Proof.
  split; [repeat split|].
  unfold applyCompletedIds; simpl. apply Forall2_map_self. intros e.
  each_cases (completedIds w) now e; rewrite Heq; simpl.
  - repeat split; auto.
  - repeat split; auto. rewrite Hhas, Hend. unfold date_gtb; simpl.
    intros H. apply Z.ltb_ge in H. lia.
Qed.

(** ** Progress *)


(** For an event that has length, the clamp does its work. *)
Example eventProgress_before :
  eventProgress (ev "a" 1000 3000) (TimeValue 500) = Number_of_Z 0.
Proof. vm_compute. reflexivity. Qed.

Example eventProgress_after :
  eventProgress (ev "a" 1000 3000) (TimeValue 3000) = Number_of_Z 100.
Proof. vm_compute. reflexivity. Qed.

(** With [end == start] the quotient is an infinity away from [start]. *)
Example eventProgress_degenerate_after :
  eventProgress (ev "a" 1000 1000) (TimeValue 1001) = Number_of_Z 100.
Proof. vm_compute. reflexivity. Qed.

Example eventProgress_degenerate_before :
  eventProgress (ev "a" 1000 1000) (TimeValue 999) = Number_of_Z 0.
Proof. vm_compute. reflexivity. Qed.


(** ** The streak *)

Section Streak.

Variables today yesterday : LocalDate.

(** The two keys differ, as the keys of two different days do. *)
Hypothesis yesterday_not_today : dayKey yesterday <> dayKey today.

(** A key that some run has stored is never empty. *)
Lemma dayKey_not_empty (d : LocalDate) : dayKey d <> "".
Proof.
  unfold dayKey. destruct (String_of_Z (getFullYear d)); discriminate.
Qed.

Lemma updateStreak_same_day (n : Z) (c : list (string * list JsValue)) :
  n <> 0 ->
  let st := {| streak := Some n; streakLastDate := Some (dayKey today);
               completed := c |} in
  updateStreak today yesterday st = (n, st).
Proof.
  intros Hn st. unfold updateStreak, getStreak, todayKey; simpl.
  destruct (Z.eqb_spec n 0); [contradiction|].
  destruct (String.eqb_spec (dayKey today) "") as [E|_];
    rewrite String.eqb_refl; reflexivity.
Qed.


Lemma updateStreak_after_gap (n : option Z) (last : string)
    (c : list (string * list JsValue)) :
  last <> "" -> last <> dayKey today -> last <> dayKey yesterday ->
  updateStreak today yesterday
    {| streak := n; streakLastDate := Some last; completed := c |}
  = (1, {| streak := Some 1; streakLastDate := Some (dayKey today);
           completed := c |}).
Proof.
  intros H0 H1 H2. unfold updateStreak, getStreak, todayKey; simpl.
  destruct (String.eqb_spec last "") as [E|_]; [contradiction|].
  destruct (String.eqb_spec last (dayKey today)); [contradiction|].
  destruct (String.eqb_spec last (dayKey yesterday)); [contradiction|].
  reflexivity.
Qed.

(** Twice on the same day: the second call answers what the first did. *)
Lemma updateStreak_twice (st : Storage) :
  (forall n, streak st = Some n -> 1 <= n) ->
  let r := updateStreak today yesterday st in
  fst (updateStreak today yesterday (snd r)) = fst r.
Proof.
  intros Hpos r. subst r. unfold updateStreak at 2 3.
  destruct (getStreak today st) as [n last] eqn:G.
  assert (Hn : 1 <= n).
  { unfold getStreak in G. injection G as Gn _.
    destruct (streak st) as [k|] eqn:K; [|lia].
    specialize (Hpos k eq_refl). destruct (Z.eqb_spec k 0); lia. }
  destruct (String.eqb_spec last (todayKey today)) as [E|E]; simpl.
  - unfold updateStreak. rewrite G. subst last.
    rewrite String.eqb_refl. reflexivity.
  - unfold updateStreak, getStreak, todayKey; simpl.
    destruct (String.eqb_spec (dayKey today) "") as [E'|_];
      rewrite String.eqb_refl;
      destruct (String.eqb last (dayKey yesterday));
      match goal with |- context [?k =? 0] => destruct (Z.eqb_spec k 0) end;
      simpl; lia.
Qed.

End Streak.

Lemma updateStreak_empty (today yesterday : LocalDate)
    (c : list (string * list JsValue)) :
  let st := {| streak := None; streakLastDate := None; completed := c |} in
  updateStreak today yesterday st = (1, st).
Proof.
  intros st. unfold updateStreak, getStreak, todayKey; simpl.
  rewrite String.eqb_refl. reflexivity.
Qed.

(** C5, where the code departs from it.  On a storage that has never
    seen a streak, [getStreak] supplies today's key as the last day, so
    [updateStreak] takes the "already updated today" exit: it answers 1
    and stores neither the count nor the day. *)
Theorem updateStreak_empty_store_not_persisted
    (today yesterday : LocalDate) (c : list (string * list JsValue)) :
  let st := {| streak := None; streakLastDate := None; completed := c |} in
  updateStreak today yesterday st = (1, st)
  /\ streak (snd (updateStreak today yesterday st)) = None
  /\ streakLastDate (snd (updateStreak today yesterday st)) = None.
Proof.
  intros st. pose proof (updateStreak_empty today yesterday c) as H.
  fold st in H. rewrite H. auto.
Qed.

(** The consequence: starting from a fresh install, one call a day, on
    whatever days, never stores anything, and the answer stays 1. *)
Lemma updateStreak_never_starts (days : list (LocalDate * LocalDate))
    (c : list (string * list JsValue)) :
  let st := {| streak := None; streakLastDate := None; completed := c |} in
  updateStreak_on days st = (map (fun _ => 1) days, st).
Proof.
  intros st. induction days as [|[today yesterday] rest IH]; simpl; [reflexivity|].
  pose proof (updateStreak_empty today yesterday c) as H.
  fold st in H. rewrite H, IH. reflexivity.
Qed.

(** ** Normalisation *)

(** The two [dateTime] values that [normalizeEvent] reads off a raw event. *)
Lemma normalizeEvent_object (Date_new : JsValue -> JSDate)
    (props : list (string * JsValue)) :
  let startDT := get_opt (lookup "start" props) "dateTime" in
  let endDT := get_opt (lookup "end" props) "dateTime" in
  normalizeEvent Date_new (JObj props)
  = Normal (if negb (truthy startDT) || negb (truthy endDT) then None
            else Some {| id := lookup "id" props;
                         title := or_else (lookup "summary" props)
                                    (JStr "(no title)");
                         start := Date_new startDT;
                         end_ := Date_new endDT;
                         color := JUndefined; description := JUndefined;
                         location := JUndefined;
                         _manuallyCompleted := false |}).
Proof.
  unfold normalizeEvent; simpl.
  destruct (negb _ || negb _); reflexivity.
Qed.

Lemma Calendar_normalizeEvent_object (Date_new : JsValue -> JSDate)
    (props : list (string * JsValue)) :
  let startDT := get_opt (lookup "start" props) "dateTime" in
  let endDT := get_opt (lookup "end" props) "dateTime" in
  Calendar.normalizeEvent Date_new (JObj props)
  = Normal (if negb (truthy startDT) || negb (truthy endDT) then None
            else Some {| id := lookup "id" props;
                         title := or_else (lookup "summary" props)
                                    (JStr "(no title)");
                         start := Date_new startDT;
                         end_ := Date_new endDT;
                         color := or_else (lookup "colorId" props) JNull;
                         description :=
                           or_else (lookup "description" props) (JStr "");
                         location :=
                           or_else (lookup "location" props) (JStr "");
                         _manuallyCompleted := false |}).
Proof.
  unfold Calendar.normalizeEvent; simpl.
  destruct (negb _ || negb _); reflexivity.
Qed.

(** Only [null] and [undefined] make [normalizeEvent] throw, and then a
    TypeError. *)
Lemma normalizeEvent_throws (Date_new : JsValue -> JSDate) (raw : JsValue)
    (e : Thrown) :
  normalizeEvent Date_new raw = Throw e \/ Calendar.normalizeEvent Date_new raw = Throw e ->
  e = TypeError /\ (raw = JNull \/ raw = JUndefined).
Proof.
  destruct raw; simpl;
    try (rewrite normalizeEvent_object, Calendar_normalizeEvent_object);
    intros [H | H]; try discriminate H; injection H as <-; auto.
Qed.

Lemma normalizeEvent_returns (Date_new : JsValue -> JSDate)
    (raw : JsValue) (e : Event) :
  normalizeEvent Date_new raw = Normal (Some e)
  \/ Calendar.normalizeEvent Date_new raw = Normal (Some e) ->
  let startDT := get_opt (get_opt raw "start") "dateTime" in
  let endDT := get_opt (get_opt raw "end") "dateTime" in
  truthy startDT = true /\ truthy endDT = true
  /\ start e = Date_new startDT /\ end_ e = Date_new endDT.
Proof.
  intros H.
  assert (Hobj : exists props, raw = JObj props).
  { destruct raw; simpl in H; try (destruct H as [H | H]; discriminate H).
    eexists; reflexivity. }
  destruct Hobj as [props ->]. simpl.
  rewrite normalizeEvent_object, Calendar_normalizeEvent_object in H.
  destruct (truthy (get_opt (lookup "start" props) "dateTime"));
    destruct (truthy (get_opt (lookup "end" props) "dateTime"));
    simpl in H; try (destruct H as [H | H]; discriminate H).
  destruct H as [H | H]; injection H as <-; simpl; intuition.
Qed.

(** C6, as amended.  For every raw provider event, if the normaliser
    (of either script) returns an event, then [start.dateTime] and
    [end.dateTime] were both present and the event's [start] and [end]
    are the dates the host builds from them; the two are not compared, so
    [start < end] holds exactly when the provider's two timestamps are
    valid and in that order. *)
Theorem normalizeEvent_start_end (Date_new : JsValue -> JSDate)
    (raw : JsValue) (e : Event) :
  normalizeEvent Date_new raw = Normal (Some e)
  \/ Calendar.normalizeEvent Date_new raw = Normal (Some e) ->
  let startDT := get_opt (get_opt raw "start") "dateTime" in
  let endDT := get_opt (get_opt raw "end") "dateTime" in
  truthy startDT = true /\ truthy endDT = true
  /\ start e = Date_new startDT /\ end_ e = Date_new endDT
  /\ (canonical e <-> (Date_new startDT <? Date_new endDT)%date = true).
Proof.
  intros H. destruct (normalizeEvent_returns Date_new raw e H)
    as (Hs & He & Es & Ee).
  repeat split; auto; unfold canonical; rewrite Es, Ee; auto.
Qed.

Lemma normalizeEvent_start_end_witness :
  let raw := timed "e1" "Standup" "2024-01-01T10:00:00Z" "2024-01-01T10:30:00Z" in
  let e := {| id := JStr "e1"; title := JStr "Standup";
              start := TimeValue 1704103200000; end_ := TimeValue 1704105000000;
              color := JUndefined; description := JUndefined;
              location := JUndefined; _manuallyCompleted := false |} in
  let startDT := get_opt (get_opt raw "start") "dateTime" in
  let endDT := get_opt (get_opt raw "end") "dateTime" in
  truthy startDT = true /\ truthy endDT = true
  /\ start e = Date_rfc3339 startDT /\ end_ e = Date_rfc3339 endDT
  /\ (canonical e <-> (Date_rfc3339 startDT <? Date_rfc3339 endDT)%date = true).
Proof.
  apply (normalizeEvent_start_end Date_rfc3339).
  left. vm_compute. reflexivity.
Defined.

(** C6 as stated fails on an event of no length, which the provider
    accepts: the normaliser returns it, with [start == end]. *)
Lemma normalizeEvent_zero_length :
  let raw := timed "e1" "Reminder" "2024-01-01T10:00:00Z" "2024-01-01T10:00:00Z" in
  exists e, normalizeEvent Date_rfc3339 raw = Normal (Some e)
            /\ Calendar.normalizeEvent Date_rfc3339 raw
               = Normal (Some {| id := id e; title := title e; start := start e;
                                 end_ := end_ e; color := JNull;
                                 description := JStr ""; location := JStr "";
                                 _manuallyCompleted := false |})
            /\ start e = TimeValue 1704103200000
            /\ end_ e = TimeValue 1704103200000
            /\ ~ canonical e.
Proof.
  eexists. split; [vm_compute; reflexivity|].
  split; [vm_compute; reflexivity|]. simpl.
  split; [reflexivity|]. split; [reflexivity|].
  unfold canonical; simpl. rewrite Z.ltb_irrefl. discriminate.
Qed.



(** ** The background and the popup *)

Lemma get_truthy (v : JsValue) (k : string) :
  truthy (get_opt v k) = true -> get v k = Normal (get_opt v k).
Proof. destruct v; simpl; try discriminate; reflexivity. Qed.

(** On the same event the two contexts evaluate the same tests. *)
Lemma same_event_tests (Date_new : JsValue -> JSDate) (now : JSDate)
    (raw : JsValue) (e : Event) :
  same_event Date_new raw e ->
  Background.is_current Date_new now raw = Normal (is_current now e)
  /\ Background.is_next Date_new now raw = Normal (is_future now e).
Proof.
  unfold same_event. intros H.
  destruct (normalizeEvent_returns Date_new raw e (or_introl H))
    as (Hs & He & Es & Ee).
  assert (Hobj : exists props, raw = JObj props).
  { destruct raw; simpl in H; try discriminate H. eexists; reflexivity. }
  destruct Hobj as [props ->]. simpl in Hs, He, Es, Ee.
  unfold Background.is_current, Background.is_next, is_current, is_future; simpl.
  rewrite (get_truthy _ _ Hs), (get_truthy _ _ He); simpl.
  rewrite <- Es, <- Ee.
  split; [|reflexivity].
  destruct (start e <=? now)%date; reflexivity.
Qed.

Lemma Background_find_agrees (Date_new : JsValue -> JSDate)
    (p : JsValue -> Completion bool) (q : Event -> bool)
    (raws : list JsValue) (evs : list Event) :
  Forall2 (fun raw e => same_event Date_new raw e /\ p raw = Normal (q e))
          raws evs ->
  exists r, Background.find p raws = Normal r
            /\ same_choice Date_new r (List.find q evs).
Proof.
  induction 1 as [|raw e raws evs [Hse Hp] _ IH]; simpl.
  - exists None. split; [reflexivity | exact I].
  - rewrite Hp; simpl. destruct (q e).
    + exists (Some raw). split; [reflexivity | exact Hse].
    + exact IH.
Qed.

(** Under the same hypothesis the two contexts do hold the same list:
    the popup keeps every event, and so does the background. *)
Lemma same_event_lists (Date_new : JsValue -> JSDate)
    (raws : list JsValue) (evs : list Event) :
  Forall2 (same_event Date_new) raws evs ->
  map_filter (normalizeEvent Date_new) raws = Normal evs
  /\ Background.filter Background.has_start raws = Normal raws.
Proof.
  induction 1 as [|raw e raws evs Hse _ [IH1 IH2]]; simpl; [now split|].
  destruct (normalizeEvent_returns Date_new raw e (or_introl Hse))
    as (Hs & _).
  unfold same_event in Hse. rewrite Hse, IH1, IH2; simpl.
  split; [reflexivity|].
  unfold Background.has_start.
  destruct raw; simpl in Hs |- *; try discriminate Hs.
  rewrite Hs. reflexivity.
Qed.

(** The hypothesis matters: an item with a start time and no end time is
    kept by the background's filter and skipped by the popup, so the two
    lists are no longer the same, and the selections can differ. *)
Example start_only_item_differs :
  let item := JObj [("id", JStr "x");
                    ("start", JObj [("dateTime", JStr "2024-01-01T11:00:00Z")]);
                    ("end", JObj [("date", JStr "2024-01-01")])] in
  let now := TimeValue 1704102300000 in
  Background.filter Background.has_start [item] = Normal [item]
  /\ Background.updateBadge_select Date_rfc3339 now [item]
     = Normal (None, Some item)
  /\ map_filter (normalizeEvent Date_rfc3339) [item] = Normal [].
Proof. repeat split. Qed.

(** C8.  On the same list of events and the same [now], the [current]
    and [next] that the background's [updateBadge] selects are the
    [current] and [next] of the popup's [classifyEvents]. *)
Theorem updateBadge_agrees_with_classifyEvents
    (Date_new : JsValue -> JSDate) (now : JSDate)
    (raws : list JsValue) (evs : list Event) :
  Forall2 (same_event Date_new) raws evs ->
  exists c n,
    Background.updateBadge_select Date_new now raws = Normal (c, n)
    /\ same_choice Date_new c (current (classifyEvents now evs))
    /\ same_choice Date_new n (next (classifyEvents now evs)).
Proof.
  intros H.
  destruct (Background_find_agrees Date_new
              (Background.is_current Date_new now) (is_current now) raws evs)
    as (c & Hc & Sc).
  { eapply Forall2_impl; [|exact H]. intros raw e Hse. split; [exact Hse|].
    apply (same_event_tests Date_new now raw e Hse). }
  destruct (Background_find_agrees Date_new
              (Background.is_next Date_new now) (is_future now) raws evs)
    as (n & Hn & Sn).
  { eapply Forall2_impl; [|exact H]. intros raw e Hse. split; [exact Hse|].
    apply (same_event_tests Date_new now raw e Hse). }
  exists c, n. unfold Background.updateBadge_select.
  rewrite Hc, Hn; simpl. split; [reflexivity|]. split; [exact Sc|].
  rewrite <- find_hd_filter. exact Sn.
Qed.

Lemma updateBadge_agrees_with_classifyEvents_witness :
  let raws := [timed "a" "Maths" "2024-01-01T09:00:00Z" "2024-01-01T09:30:00Z";
               timed "b" "Essay" "2024-01-01T09:30:00Z" "2024-01-01T10:15:00Z";
               timed "c" "Lunch" "2024-01-01T11:00:00Z" "2024-01-01T11:30:00Z"] in
  let evs := [{| id := JStr "a"; title := JStr "Maths";
                 start := TimeValue 1704099600000; end_ := TimeValue 1704101400000;
                 color := JUndefined; description := JUndefined;
                 location := JUndefined; _manuallyCompleted := false |};
              {| id := JStr "b"; title := JStr "Essay";
                 start := TimeValue 1704101400000; end_ := TimeValue 1704104100000;
                 color := JUndefined; description := JUndefined;
                 location := JUndefined; _manuallyCompleted := false |};
              {| id := JStr "c"; title := JStr "Lunch";
                 start := TimeValue 1704106800000; end_ := TimeValue 1704108600000;
                 color := JUndefined; description := JUndefined;
                 location := JUndefined; _manuallyCompleted := false |}] in
  let now := TimeValue 1704102300000 in
  exists c n,
    Background.updateBadge_select Date_rfc3339 now raws = Normal (c, n)
    /\ same_choice Date_rfc3339 c (current (classifyEvents now evs))
    /\ same_choice Date_rfc3339 n (next (classifyEvents now evs)).
Proof.
  apply updateBadge_agrees_with_classifyEvents.
  repeat constructor; vm_compute; reflexivity.
Defined.

(** ** Fetching and the retry on 401 *)

Lemma map_filter_throws (norm : JsValue -> Completion (option Event))
    (l : list JsValue) (e : Thrown) :
  (forall raw e', norm raw = Throw e' -> e' = TypeError) ->
  map_filter norm l = Throw e -> e = TypeError.
Proof.
  intros Hn. induction l as [|raw l IH]; simpl; [discriminate|].
  destruct (norm raw) as [r|e'] eqn:E; simpl.
  - destruct (map_filter norm l); simpl; [discriminate|].
    intros H. apply IH. exact H.
  - intros H. injection H as <-. exact (Hn raw e' E).
Qed.

Lemma fetchTodayEvents_response_unauthorized
    (norm : JsValue -> Completion (option Event))
    (status : Z) (body : option JsValue) :
  (forall raw e', norm raw = Throw e' -> e' = TypeError) ->
  fetchTodayEvents_response norm status body = Throw (ErrorObj "UNAUTHORIZED")
  <-> status = 401.
Proof.
  intros Hn. unfold fetchTodayEvents_response.
  destruct (Z.eqb_spec status 401) as [->|Hne]; [tauto|].
  split; [|contradiction].
  destruct (negb (ok status));
    [cbn [String.append]; intros H; discriminate H|].
  destruct body as [data|]; simpl; [|intros H; discriminate H].
  destruct data; simpl; try (intros H; discriminate H).
  destruct (or_else _ (JArr [])); try (intros H; discriminate H).
  intros H. apply (map_filter_throws norm _ _ Hn) in H. discriminate H.
Qed.

Lemma fetchTodayEvents_run (host : Host)
    (norm : JsValue -> Completion (option Event)) (tok : string) (w : World) :
  fetchTodayEvents host norm tok w
  = (settles norm (fetch_answer host (fetch_calls w) tok),
     count_fetch (log (Fetch tok) w)).
Proof.
  unfold fetchTodayEvents, bind, fetch, lift, settles.
  destruct (fetch_answer host (fetch_calls w) tok); reflexivity.
Qed.

Lemma settles_unauthorized (norm : JsValue -> Completion (option Event))
    (a : HttpAnswer) :
  (forall raw e', norm raw = Throw e' -> e' = TypeError) ->
  settles norm a = Throw (ErrorObj "UNAUTHORIZED")
  <-> exists body, a = Response 401 body.
Proof.
  intros Hn. destruct a as [|status body]; simpl.
  - split; [discriminate | intros [b H]; discriminate H].
  - rewrite (fetchTodayEvents_response_unauthorized norm status body Hn).
    split; [intros ->; eexists; reflexivity | intros [b H]; congruence].
Qed.

Lemma fetch_unauthorized_iff_401 (host : Host)
    (norm : JsValue -> Completion (option Event)) :
  (forall raw e', norm raw = Throw e' -> e' = TypeError) ->
  unauthorized_iff_401 host norm.
Proof.
  intros Hn tok w. rewrite fetchTodayEvents_run; simpl.
  apply settles_unauthorized. exact Hn.
Qed.

Lemma loadAndRender_run (host : Host)
    (norm : JsValue -> Completion (option Event)) (now : Z)
    (today : LocalDate) (tok : string) (w : World) :
  loadAndRender host norm now today tok w
  = match first_attempt host norm tok w with
    | (Normal evs, w') => show_events now today evs w'
    | (Throw e, w') => (Throw e, w')
    end.
Proof.
  unfold loadAndRender, first_attempt.
  unfold bind at 1.
  destruct (try_catch _ _ w) as [[evs|e] w']; [|reflexivity].
  unfold show_events, bind, modify, gets, render_run.
  destruct (render_returns _); reflexivity.
Qed.

Lemma show_events_trace (now : Z) (today : LocalDate) (evs : list Event)
    (w : World) :
  trace (snd (show_events now today evs w)) = trace w.
Proof. unfold show_events. destruct (render_returns _); reflexivity. Qed.

Lemma message_is_true (err : Thrown) (m : string) :
  message_is err m = true <-> err = ErrorObj m.
Proof.
  destruct err; simpl; try (split; [discriminate | intros H; discriminate H]).
  split.
  - intros H. apply String.eqb_eq in H. now subst.
  - intros H. injection H as ->. apply String.eqb_refl.
Qed.

(** Without a 401 the first attempt is the one fetch. *)
Lemma first_attempt_no_401 (host : Host)
    (norm : JsValue -> Completion (option Event)) (tok : string) (w : World) :
  (forall raw e', norm raw = Throw e' -> e' = TypeError) ->
  (forall body, fetch_answer host (fetch_calls w) tok <> Response 401 body) ->
  first_attempt host norm tok w
  = (settles norm (fetch_answer host (fetch_calls w) tok),
     count_fetch (log (Fetch tok) w)).
Proof.
  intros Hn Hno. unfold first_attempt, try_catch.
  rewrite fetchTodayEvents_run.
  destruct (settles norm (fetch_answer host (fetch_calls w) tok))
    as [evs|err] eqn:E; [reflexivity|].
  destruct (message_is err "UNAUTHORIZED") eqn:Em; [|reflexivity].
  apply message_is_true in Em. subst err.
  apply (settles_unauthorized norm _ Hn) in E. destruct E as [body E].
  now apply Hno in E.
Qed.

(** With a 401 it is the fetch, one cycle, and whatever the cycle gave. *)
Lemma first_attempt_401 (host : Host)
    (norm : JsValue -> Completion (option Event)) (tok : string) (w : World)
    (body : option JsValue) :
  fetch_answer host (fetch_calls w) tok = Response 401 body ->
  let refresh := identity_answer host (identity_calls w) false in
  let reacquire := identity_answer host (S (identity_calls w)) false in
  exists w',
    trace w' = trace w ++ Fetch tok :: retry_cycle refresh reacquire
    /\ match resolved reacquire with
       | Some newToken =>
           first_attempt host norm tok w
           = (settles norm (fetch_answer host (S (fetch_calls w)) newToken), w')
           /\ fetch_calls w' = S (S (fetch_calls w))
       | None =>
           (exists reason,
               first_attempt host norm tok w = (Throw (Rejected reason), w'))
           /\ fetch_calls w' = S (fetch_calls w)
       end.
Proof.
  intros H refresh reacquire.
  unfold first_attempt, try_catch. rewrite fetchTodayEvents_run, H.
  cbn [settles fetchTodayEvents_response Z.eqb Pos.eqb message_is String.eqb
       Ascii.eqb Bool.eqb].
  unfold bind, refreshToken, getAuthToken, identity_getAuthToken, modify, ret,
    throw, bind, retry_cycle, resolved.
  cbn [identity_calls count_identity count_fetch log].
  fold refresh.
  destruct (the_token refresh) as [t|];
    cbn [identity_calls count_identity count_fetch log]; fold reacquire;
    destruct (lastError reacquire) as [[m|]|];
    try destruct (the_token reacquire) as [t'|];
    try rewrite fetchTodayEvents_run;
    cbn [identity_calls fetch_calls count_identity count_fetch log];
    eexists; (split; [|split; [try eexists; reflexivity | reflexivity]]);
    cbn [trace count_identity count_fetch log];
    repeat rewrite <- app_assoc; reflexivity.
Qed.

(** C9.  [fetchTodayEvents] (of either script) fails with the error
    UNAUTHORIZED exactly when the status of the response is 401.
    [loadAndRender] answers that error, and no other, with one cycle of
    invalidating the cached token, asking for a token again and fetching
    again; whatever the second fetch fails with, a second 401 included,
    is thrown to the caller, and nothing is fetched a third time. *)
Theorem loadAndRender_retries_once (host : Host)
    (Date_new : JsValue -> JSDate) (now : Z) (today : LocalDate)
    (tok : string) (w : World) :
  let norm := normalizeEvent Date_new in
  let first := fetch_answer host (fetch_calls w) tok in
  let refresh := identity_answer host (identity_calls w) false in
  let reacquire := identity_answer host (S (identity_calls w)) false in
  let r := loadAndRender host norm now today tok w in
  (unauthorized_iff_401 host norm
   /\ unauthorized_iff_401 host (Calendar.normalizeEvent Date_new))
  /\ ((forall body, first <> Response 401 body) ->
      trace (snd r) = trace w ++ [Fetch tok]
      /\ forall e, settles norm first = Throw e -> fst r = Throw e)
  /\ (forall body, first = Response 401 body ->
      trace (snd r) = trace w ++ Fetch tok :: retry_cycle refresh reacquire
      /\ match resolved reacquire with
         | Some newToken =>
             let second := fetch_answer host (S (fetch_calls w)) newToken in
             (forall e, settles norm second = Throw e -> fst r = Throw e)
             /\ (forall body', second = Response 401 body' ->
                   fst r = Throw (ErrorObj "UNAUTHORIZED"))
         | None => exists reason, fst r = Throw (Rejected reason)
         end).
Proof.
  intros norm first refresh reacquire r.
  assert (Hn : forall raw e', norm raw = Throw e' -> e' = TypeError).
  { intros raw e' H. exact (proj1 (normalizeEvent_throws Date_new raw e' (or_introl H))). }
  assert (Hc : forall raw e', Calendar.normalizeEvent Date_new raw = Throw e' ->
                              e' = TypeError).
  { intros raw e' H. exact (proj1 (normalizeEvent_throws Date_new raw e' (or_intror H))). }
  split; [split; apply fetch_unauthorized_iff_401; assumption|].
  subst r. rewrite loadAndRender_run. split.
  - intros Hno. rewrite (first_attempt_no_401 host norm tok w Hn Hno).
    fold first. destruct (settles norm first) as [evs|err].
    + split; [|intros e He; discriminate He].
      rewrite show_events_trace. reflexivity.
    + split; [reflexivity | intros e He; injection He as <-; reflexivity].
  - intros body H401.
    destruct (first_attempt_401 host norm tok w body H401) as (w' & Htr & Hres).
    fold refresh reacquire in Htr, Hres. rewrite <- Htr.
    destruct (resolved reacquire) as [newToken|].
    + destruct Hres as [-> _].
      assert (Hthrow : forall e,
                 settles norm (fetch_answer host (S (fetch_calls w)) newToken)
                 = Throw e ->
                 fst (match settles norm (fetch_answer host (S (fetch_calls w)) newToken)
                      with
                      | Normal evs => show_events now today evs w'
                      | Throw e0 => (Throw e0, w')
                      end) = Throw e).
      { intros e He. rewrite He. reflexivity. }
      split; [|split].
      * destruct (settles norm _); [apply show_events_trace | reflexivity].
      * exact Hthrow.
      * intros body' H2. apply Hthrow.
        apply (settles_unauthorized norm _ Hn). exists body'. exact H2.
    + destruct Hres as [[reason ->] _]. split; [reflexivity|].
      exists reason. reflexivity.
Qed.

(** The run against a provider that always answers 401: two fetches, one
    cycle between them, and the error in the caller's hands. *)
Example loadAndRender_401_twice :
  let r := loadAndRender host_always_401 (normalizeEvent Date_rfc3339) 0
             {| getFullYear := 2024; getMonth := 0; getDate := 1 |}
             "t0" fresh_world in
  fst r = Throw (ErrorObj "UNAUTHORIZED")
  /\ trace (snd r) = [Fetch "t0"; GetAuthToken false; RemoveCachedAuthToken "t0";
                      GetAuthToken false; Fetch "t1"].
Proof. split; reflexivity. Qed.

(** * More about the same code *)

(** ** Classification: what the buckets leave out, and their order *)

Lemma buckets_and_dropped_perm (t : Z) (events : list Event) :
  Forall canonical events ->
  Permutation (buckets (classifyEvents (TimeValue t) events)
               ++ tl (filter (is_current (TimeValue t)) events))
              events.
Proof.
  intros Hc. unfold buckets, classifyEvents; simpl.
  rewrite hd_tl_opt_list, find_hd_filter.
  set (P := filter (is_past (TimeValue t)) events).
  set (C := filter (is_current (TimeValue t)) events).
  set (F := filter (is_future (TimeValue t)) events).
  transitivity (P ++ (opt_list (hd_error C) ++ tl C) ++ F).
  - rewrite <- !app_assoc. apply Permutation_app_head, Permutation_app_head.
    apply Permutation_app_comm.
  - rewrite hd_tl_opt_list. apply three_filters_perm.
    eapply Forall_impl; [|exact Hc].
    intros e He. exact (canonical_trichotomy t e He).
Qed.

(** For canonical events the buckets miss exactly the running events after
    the first: together with those they are the input. *)
Theorem classifyEvents_accounts_for_all (t : Z) (events : list Event) :
  Forall canonical events ->
  let now := TimeValue t in
  Permutation (buckets (classifyEvents now events)
               ++ tl (filter (is_current now) events))
              events.
Proof.
  intros Hc now. exact (buckets_and_dropped_perm t events Hc).
Qed.

Lemma classifyEvents_accounts_for_all_witness :
  let events := [ev "a" 32400000 36000000; ev "b" 34200000 37800000] in
  let now := TimeValue 35100000 in
  Permutation (buckets (classifyEvents now events)
               ++ tl (filter (is_current now) events))
              events.
Proof.
  apply classifyEvents_accounts_for_all. repeat constructor.
Defined.

Lemma start_le_trans (a b c : Event) : start_le a b -> start_le b c -> start_le a c.
Proof.
  unfold start_le, date_leb.
  destruct (start a), (start b), (start c); try discriminate.
  intros H1 H2. apply Z.leb_le in H1, H2. apply Z.leb_le. lia.
Qed.

Lemma StronglySorted_filter {A} (R : A -> A -> Prop) (p : A -> bool) (l : list A) :
  StronglySorted R l -> StronglySorted R (filter p l).
Proof.
  induction 1 as [|a l Hs IH Hall]; simpl; [constructor|].
  destruct (p a); [|exact IH].
  constructor; [exact IH|].
  apply Forall_forall. intros x Hx. apply filter_In in Hx.
  exact (proj1 (Forall_forall _ _) Hall x (proj1 Hx)).
Qed.

Lemma start_sorted_strongly (events : list Event) :
  Sorted start_le events -> StronglySorted start_le events.
Proof.
  apply Sorted_StronglySorted. intros a b c. apply start_le_trans.
Qed.

(** On a list sorted by start, [next] is the future event that starts
    first: it is an event of the list with [start > now], no event of the
    list with [start > now] starts before it, and it is missing exactly
    when the list has no such event.  [next] and [upcoming] together are
    the events of the list with [start > now], and [upcoming] and [past]
    are again sorted by start. *)
Theorem classifyEvents_next_is_earliest (now : JSDate) (events : list Event) :
  Sorted start_le events ->
  let c := classifyEvents now events in
  (forall n, next c = Some n ->
     In n events /\ is_future now n = true
     /\ (forall e, In e events -> is_future now e = true -> start_le n e)
     /\ Forall (start_le n) (upcoming c))
  /\ (next c = None <-> Forall (fun e => is_future now e = false) events)
  /\ (forall e, In e (opt_list (next c) ++ upcoming c)
                <-> In e events /\ is_future now e = true)
  /\ Sorted start_le (upcoming c)
  /\ Sorted start_le (past c).
Proof.
  intros Hs c. apply start_sorted_strongly in Hs.
  pose proof (StronglySorted_filter start_le (is_future now) events Hs) as HF.
  pose proof (StronglySorted_filter start_le (is_past now) events Hs) as HP.
  assert (Hmem : forall e, In e (opt_list (next c) ++ upcoming c)
                           <-> In e events /\ is_future now e = true).
  { intros e. unfold c, classifyEvents; simpl.
    rewrite hd_tl_opt_list. apply filter_In. }
  split; [|split; [|split; [exact Hmem|split]]].
  - intros n Hn.
    assert (Hf : In n events /\ is_future now n = true).
    { apply (proj1 (Hmem n)). rewrite Hn. now left. }
    unfold c, classifyEvents in *; simpl in *.
    destruct (filter (is_future now) events) as [|f rest]; [discriminate|].
    simpl in Hn. injection Hn as ->.
    apply StronglySorted_inv in HF. destruct HF as [_ Hall]. simpl in *.
    repeat split; try tauto.
    intros e Hin He.
    destruct (proj2 (Hmem e) (conj Hin He)) as [<- | Hr].
    + destruct Hf as [_ Hf].
      unfold start_le. unfold is_future, date_gtb, date_ltb in Hf.
      destruct (start n), now; try discriminate Hf.
      simpl. apply Z.leb_refl.
    + exact (proj1 (Forall_forall _ _) Hall e Hr).
  - split.
    + intros Hn. apply Forall_forall. intros e Hin.
      destruct (is_future now e) eqn:Ef; [|reflexivity].
      pose proof (proj2 (Hmem e) (conj Hin Ef)) as H.
      rewrite Hn in H. unfold c, classifyEvents in *; simpl in *.
      destruct (filter (is_future now) events); [destruct H | discriminate Hn].
    + intros Hall. case_eq (next c); [intros n Hn | reflexivity].
      assert (Hf : In n events /\ is_future now n = true).
      { apply (proj1 (Hmem n)). rewrite Hn. now left. }
      rewrite (proj1 (Forall_forall _ _) Hall n (proj1 Hf)) in Hf.
      destruct Hf as [_ Hf]. discriminate Hf.
  - unfold c, classifyEvents; simpl.
    destruct (filter (is_future now) events) as [|f rest]; simpl; [constructor|].
    apply StronglySorted_inv in HF. now apply StronglySorted_Sorted.
  - now apply StronglySorted_Sorted.
Qed.

Lemma classifyEvents_next_is_earliest_witness :
  let c := classifyEvents (TimeValue 30000000) sample_day in
  (forall n, next c = Some n ->
     In n sample_day /\ is_future (TimeValue 30000000) n = true
     /\ (forall e, In e sample_day ->
           is_future (TimeValue 30000000) e = true -> start_le n e)
     /\ Forall (start_le n) (upcoming c))
  /\ (next c = None
      <-> Forall (fun e => is_future (TimeValue 30000000) e = false) sample_day)
  /\ (forall e, In e (opt_list (next c) ++ upcoming c)
                <-> In e sample_day /\ is_future (TimeValue 30000000) e = true)
  /\ Sorted start_le (upcoming c)
  /\ Sorted start_le (past c).
Proof.
  apply classifyEvents_next_is_earliest. repeat constructor.
Defined.

(** Whatever the list, the current event has started and the next one has
    not: [current] starts strictly before [next], so the two cards never
    show the same event. *)
Theorem classifyEvents_current_before_next (now : JSDate) (events : list Event)
    (cu n : Event) :
  current (classifyEvents now events) = Some cu ->
  next (classifyEvents now events) = Some n ->
  (start cu <? start n)%date = true /\ cu <> n.
Proof.
  unfold classifyEvents; simpl. intros Hc Hn.
  apply find_some in Hc. destruct Hc as [_ Hc].
  assert (Hf : is_future now n = true).
  { destruct (filter (is_future now) events) as [|f rest] eqn:E; [discriminate|].
    injection Hn as <-.
    assert (Hin : In f (filter (is_future now) events)) by (rewrite E; now left).
    apply filter_In in Hin. exact (proj2 Hin). }
  unfold is_current in Hc. apply andb_true_iff in Hc. destruct Hc as [Hs _].
  unfold is_future, date_gtb in Hf.
  assert (Hlt : (start cu <? start n)%date = true).
  { unfold date_leb in Hs. unfold date_ltb in Hf |- *.
    destruct (start cu), now, (start n); try discriminate.
    apply Z.leb_le in Hs. apply Z.ltb_lt in Hf. apply Z.ltb_lt. lia. }
  split; [exact Hlt|]. intros ->.
  unfold date_ltb in Hlt. destruct (start n); [|discriminate].
  rewrite Z.ltb_irrefl in Hlt. discriminate.
Qed.

Lemma classifyEvents_current_before_next_witness :
  (start (ev "b" 34200000 36900000) <? start (ev "c" 39600000 41400000))%date = true
  /\ ev "b" 34200000 36900000 <> ev "c" 39600000 41400000.
Proof.
  apply (classifyEvents_current_before_next (TimeValue 35100000) sample_day);
    reflexivity.
Defined.

(** ** The overrides over several ticks *)

(** Two runs in a row, the second at a later instant and with whatever
    set of ids the storage then holds: an event that the first run
    clamped stays as the first run left it, every other event is treated
    by the second run alone. *)
Theorem applyCompletedIds_later_run_holds (now now' : Z) (ids' : JsSet) (w : World) :
  now <= now' ->
  events (applyCompletedIds now'
            (set_completedIds ids' (applyCompletedIds now w)))
  = map (fun e =>
           if has (completedIds w) (id e) && (end_ e >? TimeValue now)%date
           then applyCompletedIds_each (completedIds w) now e
           else applyCompletedIds_each ids' now' e)
        (events w).
Proof.
  intros Hle. unfold applyCompletedIds, set_completedIds, set_events.
  cbn [events completedIds]. rewrite map_map.
  apply map_ext. intros e.
  each_cases (completedIds w) now e; rewrite Heq.
  - rewrite Hguard. reflexivity.
  - rewrite Hhas, Hend.
    unfold applyCompletedIds_each, date_gtb; simpl.
    destruct (Z.ltb_spec now t); [|lia].
    destruct (Z.ltb_spec now' now); [lia|]. rewrite andb_false_r. reflexivity.
Qed.

Lemma applyCompletedIds_later_run_holds_witness :
  events (applyCompletedIds 35160000
            (set_completedIds [] (applyCompletedIds 35100000 sample_world)))
  = map (fun e =>
           if has (completedIds sample_world) (id e)
              && (end_ e >? TimeValue 35100000)%date
           then applyCompletedIds_each (completedIds sample_world) 35100000 e
           else applyCompletedIds_each [] 35160000 e)
        (events sample_world).
Proof.
  apply (applyCompletedIds_later_run_holds 35100000 35160000 [] sample_world).
  lia.
Defined.

Lemma applyCompletedIds_current_not_completed (now : Z) (w : World) (e : Event) :
  current (classifyEvents (TimeValue now) (events (applyCompletedIds now w)))
  = Some e ->
  has (completedIds w) (id e) = false.
Proof.
  unfold classifyEvents, applyCompletedIds; simpl. intros H.
  apply find_some in H. destruct H as [Hin Hcur].
  apply in_map_iff in Hin. destruct Hin as (e0 & <- & _).
  unfold is_current in Hcur. apply andb_true_iff in Hcur. destruct Hcur as [_ Hgt].
  each_cases (completedIds w) now e0; rewrite Heq in Hgt |- *.
  - rewrite Hgt, andb_true_r in Hguard. exact Hguard.
  - simpl in Hgt. unfold date_gtb in Hgt; simpl in Hgt.
    rewrite Z.ltb_irrefl in Hgt. discriminate.
Qed.

(** After a tick the popup shows the classification of its events at that
    instant, made with the ids that the storage holds for the day, and the
    event it shows as current is never one of those ids. *)
Theorem tick_current_not_completed (now : Z) (today : LocalDate) (w : World) :
  let w' := tick now today w in
  completedIds w' = loadCompletedIds today (storage w)
  /\ classified w' = classifyEvents (TimeValue now) (events w')
  /\ forall e, current (classified w') = Some e ->
               has (completedIds w') (id e) = false.
Proof.
  intros w'. split; [reflexivity|]. split; [reflexivity|].
  intros e H. unfold w', tick, render in H; simpl in H.
  apply (applyCompletedIds_current_not_completed now
           (set_completedIds (loadCompletedIds today (storage w)) w) e) in H.
  exact H.
Qed.

(** A tick at the same instant on the same storage changes nothing more. *)
Theorem tick_idempotent (now : Z) (today : LocalDate) (w : World) :
  tick now today (tick now today w) = tick now today w.
Proof.
  unfold tick, render, applyCompletedIds, set_classified, set_events,
    set_completedIds; simpl.
  rewrite map_map.
  rewrite (map_ext _ _ (applyCompletedIds_each_idem
                          (loadCompletedIds today (storage w)) now)).
  reflexivity.
Qed.

(** The guard of [applyCompletedIds] looks at the end only.  A completed
    event that has not started yet (its id is in the set, [now < start <
    end]) gets its end moved before its start, and is then classified
    both as future and as past. *)
Theorem applyCompletedIds_future_event_twice (now : Z) (w : World) (e : Event) :
  In e (events w) ->
  has (completedIds w) (id e) = true ->
  canonical e ->
  (start e >? TimeValue now)%date = true ->
  let e' := applyCompletedIds_each (completedIds w) now e in
  let c := classifyEvents (TimeValue now) (events (applyCompletedIds now w)) in
  end_ e' = TimeValue now
  /\ (end_ e' <? start e')%date = true
  /\ In e' (past c)
  /\ In e' (opt_list (next c) ++ upcoming c).
Proof.
  intros Hin Hhas Hcan Hfut e' c.
  assert (Hin' : In e' (events (applyCompletedIds now w))).
  { unfold applyCompletedIds; simpl. apply in_map. exact Hin. }
  unfold canonical, date_gtb, date_ltb in Hcan, Hfut.
  destruct (start e) as [s|] eqn:Es; [|discriminate].
  destruct (end_ e) as [f|] eqn:Ef; [|discriminate].
  apply Z.ltb_lt in Hcan, Hfut.
  assert (He' : e' = {| id := id e; title := title e; start := start e;
                        end_ := TimeValue now; color := color e;
                        description := description e; location := location e;
                        _manuallyCompleted := true |}).
  { unfold e'. each_cases (completedIds w) now e; [|exact Heq].
    rewrite Hhas, Ef in Hguard. unfold date_gtb in Hguard; simpl in Hguard.
    apply Z.ltb_ge in Hguard. lia. }
  assert (Hend : end_ e' = TimeValue now) by (rewrite He'; reflexivity).
  assert (Hstart : start e' = TimeValue s) by (rewrite He'; simpl; exact Es).
  split; [exact Hend|]. split; [|split].
  - rewrite Hend, Hstart. simpl. apply Z.ltb_lt. lia.
  - unfold c, classifyEvents; simpl. apply filter_In. split; [exact Hin'|].
    unfold is_past. rewrite Hend. simpl. apply Z.leb_refl.
  - unfold c, classifyEvents; simpl. rewrite hd_tl_opt_list.
    apply filter_In. split; [exact Hin'|].
    unfold is_future, date_gtb. rewrite Hstart. simpl. apply Z.ltb_lt. lia.
Qed.

Lemma applyCompletedIds_future_event_twice_witness :
  let w := sample_world in
  let now := 33000000 in
  let e := ev "b" 34200000 36900000 in
  let e' := applyCompletedIds_each (completedIds w) now e in
  let c := classifyEvents (TimeValue now) (events (applyCompletedIds now w)) in
  end_ e' = TimeValue now
  /\ (end_ e' <? start e')%date = true
  /\ In e' (past c)
  /\ In e' (opt_list (next c) ++ upcoming c).
Proof.
  apply (applyCompletedIds_future_event_twice 33000000 sample_world
           (ev "b" 34200000 36900000)).
  - right; left; reflexivity.
  - reflexivity.
  - reflexivity.
  - reflexivity.
Defined.

(** ** Day keys *)

Lemma append_inj_length (s1 s2 t1 t2 : string) :
  String.length s1 = String.length s2 ->
  String.append s1 t1 = String.append s2 t2 -> s1 = s2 /\ t1 = t2.
Proof.
  revert s2. induction s1 as [|a s1 IH]; intros [|b s2] Hl H; simpl in *;
    try discriminate; [now split|].
  injection H as -> H. injection Hl as Hl.
  destruct (IH s2 Hl H) as [-> ->]. now split.
Qed.

Lemma append_length (s t : string) :
  String.length (String.append s t) = (String.length s + String.length t)%nat.
Proof. induction s; simpl; auto. Qed.

Lemma String_of_Z_inj (a b : Z) : String_of_Z a = String_of_Z b -> a = b.
Proof.
  unfold String_of_Z. intros H.
  assert (Hnn : forall z, Z.to_int z <> Decimal.Pos Decimal.Nil
                          /\ Z.to_int z <> Decimal.Neg Decimal.Nil).
  { intros z. split; destruct z as [|p|p]; simpl; try discriminate;
      intros E; injection E as E;
      pose proof (DecimalPos.Unsigned.of_to p) as Hp;
      rewrite E in Hp; discriminate Hp. }
  apply DecimalZ.to_int_inj.
  pose proof (NilZero.isi (Z.to_int a) (proj1 (Hnn a)) (proj2 (Hnn a))) as Ha.
  pose proof (NilZero.isi (Z.to_int b) (proj1 (Hnn b)) (proj2 (Hnn b))) as Hb.
  rewrite H in Ha. rewrite Ha in Hb. now injection Hb.
Qed.

(** The month and day parts of a key: two characters, and as many
    different ones as there are numbers from 1 to 31. *)
Lemma two_digits_all (a : Z) : 1 <= a <= 31 -> In a two_digits.
Proof.
  intros H. unfold two_digits. rewrite <- (Z2Nat.id a) by lia.
  apply in_map. apply in_seq. lia.
Qed.

Lemma padStart2_two_digits (a b : Z) :
  1 <= a <= 31 -> 1 <= b <= 31 ->
  String.length (padStart2 (String_of_Z a)) = 2%nat
  /\ (padStart2 (String_of_Z a) = padStart2 (String_of_Z b) -> a = b).
Proof.
  intros Ha Hb. apply two_digits_all in Ha, Hb.
  assert (Hall : forallb (fun x =>
                   Nat.eqb (String.length (padStart2 (String_of_Z x))) 2
                   && forallb (fun y =>
                        implb (String.eqb (padStart2 (String_of_Z x))
                                          (padStart2 (String_of_Z y)))
                              (x =? y)) two_digits) two_digits = true)
    by (vm_compute; reflexivity).
  rewrite forallb_forall in Hall. specialize (Hall a Ha).
  apply andb_true_iff in Hall. destruct Hall as [Hlen Hinj].
  split; [now apply Nat.eqb_eq|].
  intros E. rewrite forallb_forall in Hinj. specialize (Hinj b Hb).
  apply String.eqb_eq in E. rewrite E in Hinj. simpl in Hinj.
  now apply Z.eqb_eq.
Qed.

Lemma dayKey_inj (d1 d2 : LocalDate) :
  valid_day d1 -> valid_day d2 -> dayKey d1 = dayKey d2 -> d1 = d2.
Proof.
  intros [Hm1 Hd1] [Hm2 Hd2] H. unfold dayKey in H.
  assert (Hm1' : 1 <= getMonth d1 + 1 <= 31) by lia.
  assert (Hm2' : 1 <= getMonth d2 + 1 <= 31) by lia.
  destruct (padStart2_two_digits _ _ Hm1' Hm2') as [Lm1 Im].
  destruct (padStart2_two_digits _ _ Hm2' Hm1') as [Lm2 _].
  destruct (padStart2_two_digits _ _ Hd1 Hd2) as [Ld1 Id].
  destruct (padStart2_two_digits _ _ Hd2 Hd1) as [Ld2 _].
  assert (Hlen : String.length (String_of_Z (getFullYear d1))
                 = String.length (String_of_Z (getFullYear d2))).
  { apply (f_equal String.length) in H.
    rewrite !append_length, Lm1, Lm2, Ld1, Ld2 in H. simpl in H. lia. }
  apply append_inj_length in H; [|exact Hlen]. destruct H as [Hy H].
  apply (append_inj_length "-" "-") in H; [|reflexivity]. destruct H as [_ H].
  apply append_inj_length in H; [|now rewrite Lm1, Lm2]. destruct H as [Hm H].
  apply (append_inj_length "-" "-") in H; [|reflexivity]. destruct H as [_ Hd].
  apply String_of_Z_inj in Hy. apply Im in Hm. apply Id in Hd.
  destruct d1, d2; simpl in *. f_equal; lia.
Qed.

(** Two different days never have the same key, whatever the year: the
    completed ids of one day are never read on another, and the key of
    yesterday is never the key of today. *)
Theorem dayKey_distinct (d1 d2 : LocalDate) :
  valid_day d1 -> valid_day d2 -> d1 <> d2 -> dayKey d1 <> dayKey d2.
Proof.
  intros H1 H2 Hne E. apply Hne. exact (dayKey_inj d1 d2 H1 H2 E).
Qed.

Lemma dayKey_distinct_witness :
  dayKey {| getFullYear := 2024; getMonth := 1; getDate := 29 |}
  <> dayKey {| getFullYear := 2024; getMonth := 2; getDate := 1 |}.
Proof.
  apply dayKey_distinct.
  - unfold valid_day; simpl; lia.
  - unfold valid_day; simpl; lia.
  - discriminate.
Defined.

(** ** The streak on real days *)



(** After a gap (the stored day is neither today nor yesterday) the count
    starts again at 1, whatever was stored, and 1 is stored with today's
    key. *)
Theorem updateStreak_gap_resets (today yesterday last : LocalDate)
    (n : option Z) (c : list (string * list JsValue)) :
  valid_day today -> valid_day yesterday -> valid_day last ->
  last <> today -> last <> yesterday ->
  updateStreak today yesterday
    {| streak := n; streakLastDate := Some (dayKey last); completed := c |}
  = (1, {| streak := Some 1; streakLastDate := Some (dayKey today);
           completed := c |}).
Proof.
  intros Ht Hy Hl H1 H2. apply updateStreak_after_gap.
  - apply dayKey_not_empty.
  - intros E. apply H1. exact (dayKey_inj last today Hl Ht E).
  - intros E. apply H2. exact (dayKey_inj last yesterday Hl Hy E).
Qed.

Lemma updateStreak_gap_resets_witness :
  updateStreak {| getFullYear := 2024; getMonth := 2; getDate := 1 |}
    {| getFullYear := 2024; getMonth := 1; getDate := 29 |}
    {| streak := Some 7;
       streakLastDate :=
         Some (dayKey {| getFullYear := 2024; getMonth := 1; getDate := 20 |});
       completed := [] |}
  = (1,
     {| streak := Some 1;
        streakLastDate :=
          Some (dayKey {| getFullYear := 2024; getMonth := 2; getDate := 1 |});
        completed := [] |}).
Proof.
  apply (updateStreak_gap_resets
           {| getFullYear := 2024; getMonth := 2; getDate := 1 |}
           {| getFullYear := 2024; getMonth := 1; getDate := 29 |}
           {| getFullYear := 2024; getMonth := 1; getDate := 20 |}).
  - unfold valid_day; simpl; lia.
  - unfold valid_day; simpl; lia.
  - unfold valid_day; simpl; lia.
  - discriminate.
  - discriminate.
Defined.

(** With a stored count of at least 1, a second call on the same day
    answers what the first call answered and writes nothing. *)
Theorem updateStreak_second_call_same_day (today yesterday : LocalDate)
    (st : Storage) :
  (forall n, streak st = Some n -> 1 <= n) ->
  let r := updateStreak today yesterday st in
  updateStreak today yesterday (snd r) = r.
Proof.
  intros Hpos r. subst r. unfold updateStreak at 2 3.
  destruct (getStreak today st) as [n last] eqn:G.
  assert (Hn : 1 <= n).
  { unfold getStreak in G. injection G as Gn _.
    destruct (streak st) as [k|] eqn:K; [|lia].
    specialize (Hpos k eq_refl). destruct (Z.eqb_spec k 0); lia. }
  destruct (String.eqb_spec last (todayKey today)) as [E|E]; simpl.
  - unfold updateStreak. rewrite G. subst last.
    rewrite String.eqb_refl. reflexivity.
  - unfold updateStreak, getStreak, todayKey; cbn [streak streakLastDate].
    assert (Hne : dayKey today <> "") by apply dayKey_not_empty.
    destruct (String.eqb_spec (dayKey today) ""); [contradiction|].
    rewrite String.eqb_refl.
    destruct (String.eqb last (dayKey yesterday)).
    + destruct (Z.eqb_spec (n + 1) 0); [lia | reflexivity].
    + reflexivity.
Qed.

Lemma updateStreak_second_call_same_day_witness :
  let today := {| getFullYear := 2024; getMonth := 2; getDate := 1 |} in
  let yesterday := {| getFullYear := 2024; getMonth := 1; getDate := 29 |} in
  let st := {| streak := Some 3; streakLastDate := Some (dayKey yesterday);
               completed := [] |} in
  let r := updateStreak today yesterday st in
  updateStreak today yesterday (snd r) = r.
Proof.
  apply updateStreak_second_call_same_day.
  simpl. intros n H. injection H as <-. lia.
Defined.



(** ** The completed ids in the storage *)

Lemma sameValueZero_string (a : string) (y : JsValue) :
  sameValueZero (JStr a) y = true <-> y = JStr a.
Proof.
  destruct y; simpl; try (split; [discriminate | intros H; discriminate H]).
  rewrite String.eqb_eq. split; [now intros -> | intros H; now injection H].
Qed.

Lemma sameValueZero_string_r (a : string) (y : JsValue) :
  sameValueZero y (JStr a) = true <-> y = JStr a.
Proof.
  destruct y; simpl; try (split; [discriminate | intros H; discriminate H]).
  rewrite String.eqb_eq. split; [now intros -> | intros H; now injection H].
Qed.

Lemma has_app (a b : JsSet) (v : JsValue) : has (a ++ b) v = has a v || has b v.
Proof. unfold has. apply existsb_app. Qed.

Lemma has_string_In (l : JsSet) (a : string) :
  has l (JStr a) = true <-> In (JStr a) l.
Proof.
  unfold has. rewrite existsb_exists. split.
  - intros (y & Hin & Hy). apply sameValueZero_string in Hy. now subst.
  - intros H. exists (JStr a). split; [exact H|]. now apply sameValueZero_string.
Qed.

Lemma has_In_string (l : JsSet) (x : JsValue) :
  forallb is_string l = true -> has l x = true -> In x l.
Proof.
  intros Hl H. unfold has in H. apply existsb_exists in H.
  destruct H as (y & Hin & Hy).
  rewrite forallb_forall in Hl. specialize (Hl y Hin).
  destruct y; try discriminate Hl.
  apply sameValueZero_string_r in Hy. now subst.
Qed.

Lemma Set_of_In (l acc : JsSet) (x : JsValue) :
  In x (Set_of l acc) -> In x acc \/ In x l.
Proof.
  revert acc. induction l as [|y l IH]; intros acc H; simpl in *; [now left|].
  apply IH in H. destruct H as [H | H]; [|now right; right].
  destruct (has acc y); [now left|].
  apply in_app_or in H. destruct H as [H | [<- | []]]; [now left | now right; left].
Qed.

Lemma Set_of_strings (l acc : JsSet) :
  forallb is_string l = true -> forallb is_string acc = true ->
  forallb is_string (Set_of l acc) = true.
Proof.
  intros Hl Ha. apply forallb_forall. intros x Hx.
  apply Set_of_In in Hx. rewrite forallb_forall in Hl, Ha.
  destruct Hx; auto.
Qed.

Lemma has_Set_of (l acc : JsSet) (a : string) :
  has (Set_of l acc) (JStr a) = has acc (JStr a) || has l (JStr a).
Proof.
  revert acc. induction l as [|y l IH]; intros acc.
  - simpl. now rewrite orb_false_r.
  - cbn [Set_of]. rewrite IH.
    change (has (y :: l) (JStr a))
      with (sameValueZero (JStr a) y || has l (JStr a)).
    destruct (has acc y) eqn:Hy.
    + destruct (sameValueZero (JStr a) y) eqn:E; [|reflexivity].
      apply sameValueZero_string in E. subst y. rewrite Hy. reflexivity.
    + rewrite has_app.
      change (has [y] (JStr a)) with (sameValueZero (JStr a) y || false).
      rewrite orb_false_r, orb_assoc. reflexivity.
Qed.

Lemma distinct_snoc (acc : JsSet) (x : JsValue) :
  forallb is_string acc = true -> is_string x = true ->
  distinct acc = true -> has acc x = false -> distinct (acc ++ [x]) = true.
Proof.
  intros Hs Hx. induction acc as [|y acc IH]; simpl; intros Hd Hh; [reflexivity|].
  simpl in Hs. apply andb_true_iff in Hs. destruct Hs as [Hy Hs].
  apply andb_true_iff in Hd. destruct Hd as [Hny Hd].
  apply orb_false_iff in Hh. destruct Hh as [Hxy Hh].
  rewrite has_app, negb_orb, Hny, (IH Hs Hd Hh). simpl.
  destruct x, y; try discriminate; simpl in *.
  rewrite String.eqb_sym, Hxy. reflexivity.
Qed.

Lemma Set_of_distinct (l acc : JsSet) :
  forallb is_string l = true -> forallb is_string acc = true ->
  distinct acc = true -> distinct (Set_of l acc) = true.
Proof.
  revert acc. induction l as [|y l IH]; intros acc Hl Ha Hd; simpl; [exact Hd|].
  simpl in Hl. apply andb_true_iff in Hl. destruct Hl as [Hy Hl].
  destruct (has acc y) eqn:E; [now apply IH|].
  apply IH; [exact Hl | | now apply distinct_snoc].
  rewrite forallb_app, Ha. simpl. now rewrite Hy.
Qed.

Lemma Set_of_fixed (l acc : JsSet) :
  forallb is_string l = true ->
  distinct l = true -> (forall x, In x l -> has acc x = false) ->
  Set_of l acc = acc ++ l.
Proof.
  revert acc. induction l as [|y l IH]; intros acc Hs Hd Hacc; simpl.
  - now rewrite app_nil_r.
  - simpl in Hs, Hd. apply andb_true_iff in Hs, Hd.
    destruct Hs as [Hy Hs]. destruct Hd as [Hny Hd].
    rewrite (Hacc y (or_introl eq_refl)).
    rewrite IH; [now rewrite <- app_assoc | exact Hs | exact Hd |].
    intros x Hx. rewrite has_app, (Hacc x (or_intror Hx)). simpl.
    rewrite orb_false_r.
    destruct (sameValueZero x y) eqn:E; [|reflexivity].
    rewrite forallb_forall in Hs. specialize (Hs x Hx).
    destruct x, y; try discriminate. simpl in E. apply String.eqb_eq in E.
    subst. apply negb_true_iff in Hny.
    apply has_string_In in Hx. rewrite Hx in Hny. discriminate.
Qed.

Lemma map_stored_strings (stored : JsValue -> JsValue) (l : JsSet) :
  keeps_strings stored -> forallb is_string l = true -> map stored l = l.
Proof.
  intros Hk Hl. induction l as [|y l IH]; simpl; [reflexivity|].
  simpl in Hl. apply andb_true_iff in Hl. destruct Hl as [Hy Hl].
  rewrite (IH Hl). destruct y; try discriminate. now rewrite Hk.
Qed.

Lemma assoc_assoc_set {A} (k k' : string) (v : A) (l : list (string * A)) :
  assoc k' (assoc_set k v l) = if String.eqb k' k then Some v else assoc k' l.
Proof.
  induction l as [|[k0 v0] l IH]; simpl.
  - destruct (String.eqb_spec k' k); reflexivity.
  - destruct (String.eqb_spec k k0) as [->|Hne]; simpl.
    + destruct (String.eqb_spec k' k0); reflexivity.
    + rewrite IH. destruct (String.eqb_spec k' k0) as [->|]; [|reflexivity].
      destruct (String.eqb_spec k0 k); [congruence | reflexivity].
Qed.

Lemma assoc_set_twice {A} (k : string) (v v' : A) (l : list (string * A)) :
  assoc_set k v (assoc_set k v' l) = assoc_set k v l.
Proof.
  induction l as [|[k0 v0] l IH]; simpl.
  - now rewrite String.eqb_refl.
  - destruct (String.eqb_spec k k0) as [->|Hne]; simpl.
    + now rewrite String.eqb_refl.
    + destruct (String.eqb_spec k k0); [contradiction|]. now rewrite IH.
Qed.

Lemma loadCompletedIds_stored (today : LocalDate) (st : Storage) :
  loadCompletedIds today st = Set_of (stored_ids today st) [].
Proof.
  unfold loadCompletedIds, stored_ids.
  destruct (assoc _ (completed st)); reflexivity.
Qed.

Lemma stored_ids_set_completed (today : LocalDate) (ids : list JsValue)
    (st : Storage) :
  stored_ids today
    (set_completed (String.append "completed_" (todayKey today)) ids st) = ids.
Proof.
  unfold stored_ids, set_completed; simpl.
  rewrite assoc_assoc_set, String.eqb_refl. reflexivity.
Qed.

Lemma loadCompletedIds_strings (today : LocalDate) (st : Storage) :
  forallb is_string (stored_ids today st) = true ->
  forallb is_string (loadCompletedIds today st) = true
  /\ distinct (loadCompletedIds today st) = true.
Proof.
  intros H. rewrite loadCompletedIds_stored. split.
  - now apply Set_of_strings.
  - now apply Set_of_distinct.
Qed.

Lemma Set_add_strings (l : JsSet) (s : string) :
  forallb is_string l = true -> distinct l = true ->
  forallb is_string (Set_add l (JStr s)) = true
  /\ distinct (Set_add l (JStr s)) = true
  /\ has (Set_add l (JStr s)) (JStr s) = true.
Proof.
  intros Hl Hd. unfold Set_add. destruct (has l (JStr s)) eqn:E.
  - auto.
  - rewrite forallb_app, Hl, has_app. simpl. rewrite String.eqb_refl, orb_true_r.
    repeat split. now apply distinct_snoc.
Qed.

Lemma Set_delete_strings (l : JsSet) (s : string) :
  forallb is_string l = true -> distinct l = true ->
  forallb is_string (Set_delete l (JStr s)) = true
  /\ distinct (Set_delete l (JStr s)) = true.
Proof.
  unfold Set_delete. induction l as [|y l IH]; intros Hl Hd; [now split|].
  cbn [forallb distinct] in Hl, Hd.
  apply andb_true_iff in Hl, Hd. destruct Hl as [Hy Hl]. destruct Hd as [Hny Hd].
  destruct (IH Hl Hd) as [IH1 IH2]. cbn [filter].
  destruct (negb (sameValueZero (JStr s) y)); [|now split].
  cbn [forallb distinct]. split; apply andb_true_iff; split; auto.
  apply negb_true_iff. apply negb_true_iff in Hny.
  destruct (has (filter (fun x => negb (sameValueZero (JStr s) x)) l) y) eqn:E;
    [|reflexivity].
  apply (has_In_string _ _ IH1) in E. apply filter_In in E. destruct E as [E _].
  destruct y; try discriminate Hy.
  apply has_string_In in E. rewrite E in Hny. discriminate.
Qed.

Lemma has_cons_string (y x : string) (l : JsSet) :
  has (JStr y :: l) (JStr x) = String.eqb x y || has l (JStr x).
Proof. reflexivity. Qed.

Lemma has_Set_delete (l : JsSet) (s x : string) :
  forallb is_string l = true ->
  has (Set_delete l (JStr s)) (JStr x)
  = has l (JStr x) && negb (String.eqb x s).
Proof.
  unfold Set_delete. induction l as [|y l IH]; intros Hl; [reflexivity|].
  cbn [forallb] in Hl. apply andb_true_iff in Hl. destruct Hl as [Hy Hl].
  specialize (IH Hl). destruct y as [| | | |y| |]; try discriminate Hy.
  cbn [filter]. change (sameValueZero (JStr s) (JStr y)) with (String.eqb s y).
  rewrite has_cons_string.
  destruct (String.eqb_spec s y) as [Esy|Hne]; cbn [negb].
  - rewrite IH, Esy. destruct (String.eqb x y); simpl.
    + now rewrite andb_false_r.
    + reflexivity.
  - rewrite has_cons_string, IH.
    destruct (String.eqb_spec x y) as [Exy|Hxy]; simpl; [|reflexivity].
    destruct (String.eqb_spec x s); [congruence | reflexivity].
Qed.

Section CompletedIdsFacts.

Variable stored : JsValue -> JsValue.
Variable today : LocalDate.
Variable st : Storage.

Hypothesis stored_keeps_strings : keeps_strings stored.
Hypothesis ids_are_strings : forallb is_string (stored_ids today st) = true.

Let key := String.append "completed_" (todayKey today).

Lemma loadCompletedIds_after_set (ids : list JsValue) :
  forallb is_string ids = true -> distinct ids = true ->
  loadCompletedIds today (set_completed key ids st) = ids.
Proof.
  intros Hs Hd. rewrite loadCompletedIds_stored.
  unfold key. rewrite stored_ids_set_completed.
  rewrite Set_of_fixed; auto.
Qed.

Lemma saveCompletedId_loaded (s : string) :
  loadCompletedIds today (saveCompletedId stored today (JStr s) st)
  = Set_add (loadCompletedIds today st) (JStr s).
Proof.
  destruct (loadCompletedIds_strings today st ids_are_strings) as [Hs Hd].
  destruct (Set_add_strings _ s Hs Hd) as (Hs' & Hd' & _).
  unfold saveCompletedId. fold key.
  rewrite (map_stored_strings stored _ stored_keeps_strings Hs').
  apply loadCompletedIds_after_set; assumption.
Qed.

Lemma removeCompletedId_loaded (s : string) :
  loadCompletedIds today (removeCompletedId stored today (JStr s) st)
  = Set_delete (loadCompletedIds today st) (JStr s).
Proof.
  destruct (loadCompletedIds_strings today st ids_are_strings) as [Hs Hd].
  destruct (Set_delete_strings _ s Hs Hd) as (Hs' & Hd').
  unfold removeCompletedId. fold key.
  rewrite (map_stored_strings stored _ stored_keeps_strings Hs').
  apply loadCompletedIds_after_set; assumption.
Qed.

End CompletedIdsFacts.

(** After [saveCompletedId(s)] the ids of the day are the ones there were
    and [s]: marking an event complete is seen by the next load, and
    un-marks no other event. *)
Theorem saveCompletedId_then_load (stored : JsValue -> JsValue)
    (today : LocalDate) (st : Storage) (s x : string) :
  keeps_strings stored ->
  forallb is_string (stored_ids today st) = true ->
  has (loadCompletedIds today (saveCompletedId stored today (JStr s) st)) (JStr x)
  = has (loadCompletedIds today st) (JStr x) || String.eqb x s.
Proof.
  intros Hk Hs. rewrite (saveCompletedId_loaded stored today st Hk Hs).
  unfold Set_add. destruct (has (loadCompletedIds today st) (JStr s)) eqn:E.
  - destruct (String.eqb_spec x s) as [->|]; [|now rewrite orb_false_r].
    now rewrite E.
  - rewrite has_app, has_cons_string. cbn [has existsb].
    now rewrite orb_false_r.
Qed.

Lemma saveCompletedId_then_load_witness :
  has (loadCompletedIds sample_day_1
         (saveCompletedId json_element sample_day_1 (JStr "c") sample_storage))
      (JStr "c")
  = has (loadCompletedIds sample_day_1 sample_storage) (JStr "c")
    || String.eqb "c" "c".
Proof.
  apply saveCompletedId_then_load.
  - intros s. reflexivity.
  - reflexivity.
Defined.

(** After [removeCompletedId(s)] the ids of the day are the ones there
    were without [s]: the undo is seen by the next load, and un-marks no
    other event. *)
Theorem removeCompletedId_then_load (stored : JsValue -> JsValue)
    (today : LocalDate) (st : Storage) (s x : string) :
  keeps_strings stored ->
  forallb is_string (stored_ids today st) = true ->
  has (loadCompletedIds today (removeCompletedId stored today (JStr s) st))
      (JStr x)
  = has (loadCompletedIds today st) (JStr x) && negb (String.eqb x s).
Proof.
  intros Hk Hs. rewrite (removeCompletedId_loaded stored today st Hk Hs).
  apply has_Set_delete.
  exact (proj1 (loadCompletedIds_strings today st Hs)).
Qed.

Lemma removeCompletedId_then_load_witness :
  has (loadCompletedIds sample_day_1
         (removeCompletedId json_element sample_day_1 (JStr "a") sample_storage))
      (JStr "b")
  = has (loadCompletedIds sample_day_1 sample_storage) (JStr "b")
    && negb (String.eqb "b" "a").
Proof.
  apply removeCompletedId_then_load.
  - intros s. reflexivity.
  - reflexivity.
Defined.

Lemma set_completed_twice (key : string) (ids ids' : list JsValue) (st : Storage) :
  set_completed key ids (set_completed key ids' st) = set_completed key ids st.
Proof.
  unfold set_completed; simpl. now rewrite assoc_set_twice.
Qed.

(** Saving the same id a second time leaves the storage as the first
    save left it. *)
Theorem saveCompletedId_idempotent (stored : JsValue -> JsValue)
    (today : LocalDate) (st : Storage) (s : string) :
  keeps_strings stored ->
  forallb is_string (stored_ids today st) = true ->
  saveCompletedId stored today (JStr s)
    (saveCompletedId stored today (JStr s) st)
  = saveCompletedId stored today (JStr s) st.
Proof.
  intros Hk Hs.
  destruct (loadCompletedIds_strings today st Hs) as [Hl Hd].
  destruct (Set_add_strings _ s Hl Hd) as (Hl' & Hd' & Hhas).
  unfold saveCompletedId at 1.
  rewrite (saveCompletedId_loaded stored today st Hk Hs).
  unfold Set_add at 1. rewrite Hhas.
  unfold saveCompletedId. apply set_completed_twice.
Qed.

Lemma saveCompletedId_idempotent_witness :
  saveCompletedId json_element sample_day_1 (JStr "c")
    (saveCompletedId json_element sample_day_1 (JStr "c") sample_storage)
  = saveCompletedId json_element sample_day_1 (JStr "c") sample_storage.
Proof.
  apply saveCompletedId_idempotent.
  - intros s. reflexivity.
  - reflexivity.
Defined.

Lemma Set_delete_absent (l : JsSet) (s : string) :
  has l (JStr s) = false -> Set_delete l (JStr s) = l.
Proof.
  unfold Set_delete. induction l as [|y l IH]; intros H; [reflexivity|].
  cbn [has existsb] in H. apply orb_false_iff in H. destruct H as [Hy Hl].
  cbn [filter]. rewrite Hy. cbn [negb]. f_equal. exact (IH Hl).
Qed.

(** Marking an event complete and undoing it gives back the ids of the
    day as they were loaded before, when the event was not among them. *)
Theorem removeCompletedId_undoes_save (stored : JsValue -> JsValue)
    (today : LocalDate) (st : Storage) (s : string) :
  keeps_strings stored ->
  forallb is_string (stored_ids today st) = true ->
  has (loadCompletedIds today st) (JStr s) = false ->
  loadCompletedIds today
    (removeCompletedId stored today (JStr s)
       (saveCompletedId stored today (JStr s) st))
  = loadCompletedIds today st.
Proof.
  intros Hk Hs Hno.
  destruct (loadCompletedIds_strings today st Hs) as [Hl Hd].
  pose proof (saveCompletedId_loaded stored today st Hk Hs s) as Hsave.
  assert (Hs1 : forallb is_string
                  (stored_ids today (saveCompletedId stored today (JStr s) st))
                = true).
  { unfold saveCompletedId. rewrite stored_ids_set_completed.
    rewrite (map_stored_strings stored _ Hk);
      exact (proj1 (Set_add_strings _ s Hl Hd)). }
  rewrite (removeCompletedId_loaded stored today _ Hk Hs1), Hsave.
  unfold Set_add. rewrite Hno. unfold Set_delete. rewrite filter_app.
  fold (Set_delete (loadCompletedIds today st) (JStr s)).
  rewrite (Set_delete_absent _ _ Hno). cbn [filter sameValueZero].
  rewrite String.eqb_refl. cbn [negb]. apply app_nil_r.
Qed.

Lemma removeCompletedId_undoes_save_witness :
  loadCompletedIds sample_day_1
    (removeCompletedId json_element sample_day_1 (JStr "c")
       (saveCompletedId json_element sample_day_1 (JStr "c") sample_storage))
  = loadCompletedIds sample_day_1 sample_storage.
Proof.
  apply removeCompletedId_undoes_save.
  - intros s. reflexivity.
  - reflexivity.
  - reflexivity.
Defined.

Lemma completed_key_inj (k1 k2 : string) :
  String.append "completed_" k1 = String.append "completed_" k2 -> k1 = k2.
Proof.
  intros H. apply append_inj_length in H; [exact (proj2 H) | reflexivity].
Qed.

(** Saving or removing an id of today touches neither the streak nor the
    completed ids of any other day. *)
Theorem saveCompletedId_other_days (stored : JsValue -> JsValue)
    (today other : LocalDate) (st : Storage) (eventId : JsValue) :
  valid_day today -> valid_day other -> other <> today ->
  let saved := saveCompletedId stored today eventId st in
  let removed := removeCompletedId stored today eventId st in
  loadCompletedIds other saved = loadCompletedIds other st
  /\ loadCompletedIds other removed = loadCompletedIds other st
  /\ streak saved = streak st /\ streakLastDate saved = streakLastDate st
  /\ streak removed = streak st /\ streakLastDate removed = streakLastDate st.
Proof.
  intros Ht Ho Hne saved removed.
  assert (Hk : String.eqb (String.append "completed_" (todayKey other))
                          (String.append "completed_" (todayKey today)) = false).
  { apply String.eqb_neq. intros E. apply completed_key_inj in E.
    apply Hne. exact (dayKey_inj other today Ho Ht E). }
  unfold saved, removed, saveCompletedId, removeCompletedId, set_completed.
  unfold loadCompletedIds at 1 3 4 6. cbn [completed streak streakLastDate].
  rewrite !assoc_assoc_set, Hk. repeat split.
Qed.

Lemma saveCompletedId_other_days_witness :
  let other := {| getFullYear := 2024; getMonth := 1; getDate := 29 |} in
  let saved := saveCompletedId json_element sample_day_1 (JStr "c") sample_storage in
  let removed := removeCompletedId json_element sample_day_1 (JStr "c") sample_storage in
  loadCompletedIds other saved = loadCompletedIds other sample_storage
  /\ loadCompletedIds other removed = loadCompletedIds other sample_storage
  /\ streak saved = streak sample_storage
  /\ streakLastDate saved = streakLastDate sample_storage
  /\ streak removed = streak sample_storage
  /\ streakLastDate removed = streakLastDate sample_storage.
Proof.
  apply saveCompletedId_other_days.
  - unfold valid_day; simpl; lia.
  - unfold valid_day; simpl; lia.
  - discriminate.
Defined.

(** ** The expand button *)

(** After [render()] on canonical events, the count on the expand button
    is the number of rows that the drawer adds to the two cards (past and
    upcoming) plus the number of running events that the drawer does not
    show; it is never negative. *)
Theorem hidden_after_render (now : Z) (w : World) :
  Forall canonical (events w) ->
  let w' := render now w in
  let c := classified w' in
  hidden w'
  = Z.of_nat (List.length (past c) + List.length (upcoming c)
              + List.length (tl (filter (is_current (TimeValue now)) (events w))))
  /\ 0 <= hidden w'.
Proof.
  intros Hc w' c.
  pose proof (Permutation_length (buckets_and_dropped_perm now (events w) Hc)) as HL.
  unfold buckets in HL. rewrite !length_app in HL.
  assert (H : hidden w'
              = Z.of_nat (List.length (past c) + List.length (upcoming c)
                          + List.length (tl (filter (is_current (TimeValue now))
                                               (events w))))).
  { unfold c, w', hidden, render. cbn [events classified set_classified].
    set (cl := classifyEvents (TimeValue now) (events w)) in *.
    destruct (current cl), (next cl); cbn [opt_list List.length] in HL; lia. }
  split; [exact H | rewrite H; lia].
Qed.

Lemma hidden_after_render_witness :
  let w' := render 35100000 sample_world in
  let c := classified w' in
  hidden w'
  = Z.of_nat (List.length (past c) + List.length (upcoming c)
              + List.length (tl (filter (is_current (TimeValue 35100000))
                                   (events sample_world))))
  /\ 0 <= hidden w'.
Proof.
  apply hidden_after_render. repeat constructor.
Defined.

(** ** The items of a response *)



(** ** A load that succeeds *)






(** A summary that is a number makes the title a number: read before the
    event starts, [eventEmoji] throws, [loadAndRender] throws the
    TypeError on and sets no timer; the events are classified all the
    same. *)
Example loadAndRender_title_not_a_string :
  let raw := JObj [("id", JStr "a"); ("summary", JNum (Number_of_Z 7));
                   ("start", JObj [("dateTime", JStr "2024-01-01T10:00:00Z")]);
                   ("end", JObj [("dateTime", JStr "2024-01-01T11:00:00Z")])] in
  let host := {| identity_answer := identity_answer host_sample;
                 fetch_answer := fun _ _ =>
                   Response 200 (Some (JObj [("items", JArr [raw])])) |} in
  let r := loadAndRender host (normalizeEvent Date_rfc3339) 1704099600000
             {| getFullYear := 2024; getMonth := 0; getDate := 1 |}
             "t0" fresh_world in
  fst r = Throw TypeError
  /\ tickInterval (snd r) = false
  /\ List.length (events (snd r)) = 1%nat
  /\ option_map id (next (classified (snd r))) = Some (JStr "a").
Proof. vm_compute. repeat split. Qed.

(** ** The start of the popup *)

Lemma getAuthToken_run (host : Host) (interactive : bool) (w : World) :
  let a := identity_answer host (identity_calls w) interactive in
  let w' := count_identity (log (GetAuthToken interactive) w) in
  getAuthToken host interactive w
  = (match resolved a with
     | Some t => Normal t
     | None => Throw (Rejected (rejection_reason a))
     end, w').
Proof.
  unfold getAuthToken, bind, identity_getAuthToken, resolved, rejection_reason,
    ret, throw.
  destruct (lastError _) as [[m|]|]; try destruct (the_token _); reflexivity.
Qed.

Lemma bind_getAuthToken {A} (host : Host) (interactive : bool)
    (k : string -> M A) (w : World) :
  let a := identity_answer host (identity_calls w) interactive in
  let w' := count_identity (log (GetAuthToken interactive) w) in
  bind (getAuthToken host interactive) k w
  = match resolved a with
    | Some t => k t w'
    | None => (Throw (Rejected (rejection_reason a)), w')
    end.
Proof.
  intros a w'. unfold bind. rewrite getAuthToken_run. fold a w'.
  destruct (resolved a); reflexivity.
Qed.

(** When the interactive request for a token is refused, the popup makes
    no other call, and the screen it shows depends on the wording of the
    refusal: the sign-in screen if the reason contains "Auth" (as the
    default reason does), the general error screen, which has no sign-in
    button, otherwise. *)
Theorem DOMContentLoaded_token_refused (host : Host)
    (norm : JsValue -> Completion (option Event))
    (engine_text : Thrown -> string) (now : Z) (today yesterday : LocalDate)
    (w : World) :
  let a := identity_answer host (identity_calls w) true in
  resolved a = None ->
  let r := DOMContentLoaded host norm engine_text now today yesterday w in
  snd (fst r)
  = Some (if includes (rejection_reason a) "Auth" then sign_in else general)
  /\ trace (snd r) = trace w ++ [GetAuthToken true]
  /\ (lastError a = None \/ lastError a = Some None ->
      snd (fst r) = Some sign_in).
Proof.
  intros a Hres r.
  assert (Hr : snd (fst r)
               = Some (if includes (rejection_reason a) "Auth"
                       then sign_in else general)
               /\ trace (snd r) = trace w ++ [GetAuthToken true]).
  { unfold r, DOMContentLoaded.
    destruct (updateStreak today yesterday (storage w)) as [n st].
    rewrite bind_getAuthToken.
    cbn [identity_calls set_storage]. fold a. rewrite Hres.
    split; reflexivity. }
  destruct Hr as [Hk Ht]. split; [exact Hk|]. split; [exact Ht|].
  intros Hno. rewrite Hk. unfold rejection_reason.
  destruct Hno as [-> | ->]; reflexivity.
Qed.

Lemma DOMContentLoaded_token_refused_witness :
  let a := identity_answer host_denied (identity_calls fresh_world) true in
  let r := DOMContentLoaded host_denied (normalizeEvent Date_rfc3339)
             (fun _ => "TypeError") 0
             {| getFullYear := 2024; getMonth := 0; getDate := 2 |}
             {| getFullYear := 2024; getMonth := 0; getDate := 1 |}
             fresh_world in
  snd (fst r)
  = Some (if includes (rejection_reason a) "Auth" then sign_in else general)
  /\ trace (snd r) = trace fresh_world ++ [GetAuthToken true]
  /\ (lastError a = None \/ lastError a = Some None ->
      snd (fst r) = Some sign_in).
Proof.
  apply (DOMContentLoaded_token_refused host_denied). reflexivity.
Defined.

(** With this refusal, whose wording has no "Auth" in it, the popup ends
    on the general error screen. *)
Example DOMContentLoaded_refused_general :
  snd (fst (DOMContentLoaded host_denied (normalizeEvent Date_rfc3339)
              (fun _ => "TypeError") 0
              {| getFullYear := 2024; getMonth := 0; getDate := 2 |}
              {| getFullYear := 2024; getMonth := 0; getDate := 1 |}
              fresh_world))
  = Some general.
Proof. reflexivity. Qed.

(** When the provider answers 401 to the first fetch and again to the
    retry, the error that reaches the handler is UNAUTHORIZED, whose text
    "Error: UNAUTHORIZED" has no "Auth" in it: the popup shows the general
    error screen, not the sign-in screen (and so does the older popup,
    whose test looks for a thrown string). *)
Theorem DOMContentLoaded_401_twice (host : Host) (Date_new : JsValue -> JSDate)
    (engine_text : Thrown -> string) (now : Z) (today yesterday : LocalDate)
    (w : World) (tok newTok : string) (body body' : option JsValue) :
  let k := identity_calls w in
  let n := fetch_calls w in
  resolved (identity_answer host k true) = Some tok ->
  fetch_answer host n tok = Response 401 body ->
  resolved (identity_answer host (S (S k)) false) = Some newTok ->
  fetch_answer host (S n) newTok = Response 401 body' ->
  let r := DOMContentLoaded host (normalizeEvent Date_new) engine_text
             now today yesterday w in
  snd (fst r) = Some general
  /\ error_kind_old (ErrorObj "UNAUTHORIZED") = general
  /\ fetch_calls (snd r) = S (S n).
Proof.
  intros k n Htok H1 Hnew H2 r.
  unfold r, DOMContentLoaded.
  destruct (updateStreak today yesterday (storage w)) as [c st].
  rewrite bind_getAuthToken.
  cbn [identity_calls set_storage]. fold k. rewrite Htok.
  rewrite loadAndRender_run.
  set (w1 := count_identity (log (GetAuthToken true) (set_storage st w))).
  assert (Hf : fetch_answer host (fetch_calls w1) tok = Response 401 body)
    by exact H1.
  destruct (first_attempt_401 host (normalizeEvent Date_new) tok w1 body Hf)
    as (w' & _ & Hres).
  change (identity_calls w1) with (S k) in Hres.
  change (fetch_calls w1) with n in Hres.
  rewrite Hnew in Hres. destruct Hres as [-> Hcalls].
  rewrite H2. cbn [settles fetchTodayEvents_response Z.eqb Pos.eqb].
  cbn [fst snd]. repeat split. exact Hcalls.
Qed.

Lemma DOMContentLoaded_401_twice_witness :
  let r := DOMContentLoaded host_always_401 (normalizeEvent Date_rfc3339)
             (fun _ => "TypeError") 0
             {| getFullYear := 2024; getMonth := 0; getDate := 2 |}
             {| getFullYear := 2024; getMonth := 0; getDate := 1 |}
             fresh_world in
  snd (fst r) = Some general
  /\ error_kind_old (ErrorObj "UNAUTHORIZED") = general
  /\ fetch_calls (snd r) = S (S (fetch_calls fresh_world)).
Proof.
  apply (DOMContentLoaded_401_twice host_always_401 Date_rfc3339
           (fun _ => "TypeError") 0
           {| getFullYear := 2024; getMonth := 0; getDate := 2 |}
           {| getFullYear := 2024; getMonth := 0; getDate := 1 |}
           fresh_world "t0" "t1" None None); reflexivity.
Defined.

(** ** The badge of the background worker *)

Lemma get_after_get (v : JsValue) (k k' : string) (x : JsValue) :
  get v k = Normal x -> get v k' = Normal (get_opt v k').
Proof. destruct v; simpl; intros H; try discriminate H; reflexivity. Qed.

(** Every run of [updateBadge] sets the text of the badge exactly once,
    whatever the identity service and the provider answer and whatever
    the events look like: no path leaves a stale badge, none sets it
    twice. *)
Theorem updateBadge_sets_text_once (Date_new : JsValue -> JSDate) (now : JSDate)
    (identity : IdentityAnswer) (http : HttpAnswer) :
  List.length (texts_set (updateBadge Date_new now identity http)) = 1%nat.
Proof.
  unfold updateBadge. destruct (getTokenSilent identity); [|reflexivity].
  unfold updateBadge_try, bindE, pure, call.
  destruct (fetchEvents http) as [evs|]; [|reflexivity].
  destruct (Background.updateBadge_select Date_new now evs) as [[c n]|];
    [|reflexivity].
  cbn [fst snd]. destruct (found c) as [cu|].
  - destruct (get cu "end") as [e|]; [|reflexivity].
    destruct (get e "dateTime"); reflexivity.
  - destruct (found n) as [nx|]; [|reflexivity].
    destruct (get nx "start") as [st|] eqn:Es; [|reflexivity].
    rewrite (get_after_get nx "start" "summary" st Es).
    destruct (get st "dateTime") as [dt|]; [|reflexivity].
    destruct (SFleb _ _); [|reflexivity].
    destruct (SFeqb _ _); reflexivity.
Qed.

(** Without a usable token, without a response, on a status outside
    200-299 (a 401 included) or on a body that is not JSON, the worker
    clears the badge and does nothing else: it neither notifies nor
    retries. *)
Theorem updateBadge_clears_on_failure (Date_new : JsValue -> JSDate)
    (now : JSDate) (identity : IdentityAnswer) (http : HttpAnswer) :
  (getTokenSilent identity = None ->
   updateBadge Date_new now identity http = [SetBadgeText NoText])
  /\ (http = NoResponse ->
      updateBadge Date_new now identity http = [SetBadgeText NoText])
  /\ (forall status body, http = Response status body -> ok status = false ->
      updateBadge Date_new now identity http = [SetBadgeText NoText])
  /\ (forall status, http = Response status None ->
      updateBadge Date_new now identity http = [SetBadgeText NoText]).
Proof.
  unfold updateBadge. repeat split.
  - intros ->. reflexivity.
  - intros ->. destruct (getTokenSilent identity); reflexivity.
  - intros status body -> Hok. destruct (getTokenSilent identity); [|reflexivity].
    unfold updateBadge_try, fetchEvents. rewrite Hok. reflexivity.
  - intros status ->. destruct (getTokenSilent identity); [|reflexivity].
    unfold updateBadge_try, fetchEvents. destruct (negb (ok status)); reflexivity.
Qed.

(** A run of these calls holds no notification. *)
Ltac no_notification :=
  let H := fresh "H" in
  cbn [app In]; intros H;
  repeat (destruct H as [H | H]; [discriminate H|]); destruct H.

Lemma get_get_opt (v : JsValue) (k : string) (x : JsValue) :
  get v k = Normal x -> x = get_opt v k.
Proof.
  destruct v; simpl; intros H; try discriminate H;
    injection H as <-; reflexivity.
Qed.

(** A notification is created only in a run that selected no current
    event and a next event for which
    [Math.round((new Date(next.start.dateTime) - now) / 60000)] is exactly
    5; the run then consists of that number on the badge, its colour and
    the one notification, whose message is the summary of the next event
    or the placeholder. *)
Theorem updateBadge_notifies_only_at_five (Date_new : JsValue -> JSDate)
    (now : JSDate) (identity : IdentityAnswer) (http : HttpAnswer)
    (message : JsValue) :
  In (CreateNotification message) (updateBadge Date_new now identity http) ->
  exists events c nx,
    fetchEvents http = Normal events
    /\ Background.updateBadge_select Date_new now events = Normal (c, Some nx)
    /\ found c = None
    /\ let minsUntil :=
         minutes_between
           (Date_new (get_opt (get_opt nx "start") "dateTime")) now in
       SFeqb minsUntil (Number_of_Z 5) = true
       /\ message = or_else (get_opt nx "summary") (JStr "(no title)")
       /\ updateBadge Date_new now identity http
          = [SetBadgeText (MinutesText minsUntil);
             SetBadgeBackgroundColor "#f5c4a8";
             CreateNotification message].
Proof.
  unfold updateBadge. destruct (getTokenSilent identity); [|no_notification].
  unfold updateBadge_try, bindE, pure, call.
  destruct (fetchEvents http) as [evs|]; [|no_notification].
  destruct (Background.updateBadge_select Date_new now evs) as [[c n]|] eqn:Esel;
    [|no_notification].
  cbn [fst snd]. destruct (found c) as [cu|] eqn:Ec.
  - destruct (get cu "end") as [e|]; [|no_notification].
    destruct (get e "dateTime"); no_notification.
  - destruct (found n) as [nx|] eqn:En; [|no_notification].
    assert (Hn : n = Some nx).
    { unfold found in En. destruct n as [v|]; [|discriminate En].
      destruct (truthy v); [now injection En as -> | discriminate En]. }
    destruct (get nx "start") as [st|] eqn:Es; [|no_notification].
    rewrite (get_after_get nx "start" "summary" st Es).
    destruct (get st "dateTime") as [dt|] eqn:Ed; [|no_notification].
    apply get_get_opt in Es, Ed. subst st dt.
    destruct (SFleb _ _); [|no_notification].
    destruct (SFeqb _ _) eqn:E5; [|no_notification].
    cbn [app]. intros [H | [H | [H | []]]]; try discriminate H.
    injection H as <-.
    exists evs, c, nx.
    subst n. repeat split; auto.
Qed.

Lemma updateBadge_notifies_only_at_five_witness :
  let now := TimeValue 1704106500000 in
  let identity := identity_answer host_sample 0 false in
  let http := fetch_answer host_sample 0 "t0" in
  exists events c nx,
    fetchEvents http = Normal events
    /\ Background.updateBadge_select Date_rfc3339 now events = Normal (c, Some nx)
    /\ found c = None
    /\ let minsUntil :=
         minutes_between
           (Date_rfc3339 (get_opt (get_opt nx "start") "dateTime")) now in
       SFeqb minsUntil (Number_of_Z 5) = true
       /\ JStr "Lunch" = or_else (get_opt nx "summary") (JStr "(no title)")
       /\ updateBadge Date_rfc3339 now identity http
          = [SetBadgeText (MinutesText minsUntil);
             SetBadgeBackgroundColor "#f5c4a8";
             CreateNotification (JStr "Lunch")].
Proof.
  apply (updateBadge_notifies_only_at_five Date_rfc3339
           (TimeValue 1704106500000) (identity_answer host_sample 0 false)
           (fetch_answer host_sample 0 "t0") (JStr "Lunch")).
  vm_compute. right. right. left. reflexivity.
Defined.

(** The worker's run on the sample day at 09:45: event [b] is running and
    ends in 30 minutes. *)
Example updateBadge_sample :
  updateBadge Date_rfc3339 (TimeValue 1704102300000)
    (identity_answer host_sample 0 false) (fetch_answer host_sample 0 "t0")
  = [SetBadgeText (MinutesText (Number_of_Z 30));
     SetBadgeBackgroundColor "#c9b8f0"].
Proof. vm_compute. reflexivity. Qed.

(** ** The progress of the day, and the minutes *)

Lemma same_number_eq (x y : Number) : same_number x y = true -> x = y.
Proof.
  destruct x, y; simpl; try discriminate; intros H.
  - apply Bool.eqb_prop in H. now subst.
  - apply Bool.eqb_prop in H. now subst.
  - reflexivity.
  - apply andb_true_iff in H. destruct H as [H He].
    apply andb_true_iff in H. destruct H as [Hs Hm].
    apply Bool.eqb_prop in Hs. apply Pos.eqb_eq in Hm. apply Z.eqb_eq in He.
    now subst.
Qed.

Lemma clock_times_all (h m : Z) :
  0 <= h <= 23 -> 0 <= m <= 59 -> In (h, m) clock_times.
Proof.
  intros Hh Hm. unfold clock_times. apply in_flat_map.
  exists (Z.to_nat h). split; [apply in_seq; lia|].
  apply in_map_iff. exists (Z.to_nat m). split; [|apply in_seq; lia].
  rewrite !Z2Nat.id by lia. reflexivity.
Qed.

Lemma dayProgress_table :
  forallb (fun hm =>
             let '(h, m) := hm in
             same_number (Math_round (dayProgress h m))
                         (Number_of_Z (day_percent_shown (60 * h + m)))
             && same_number (Math_round (dayProgress_old h m))
                            (Number_of_Z (window_percent_shown (60 * h + m))))
          clock_times = true.
Proof. vm_compute. reflexivity. Qed.

Lemma day_percent_mono (t t' : Z) : t <= t' -> day_percent t <= day_percent t'.
Proof. intros H. unfold day_percent. apply Z.div_le_mono; lia. Qed.

(** At every minute of the day the percentage that the popup writes
    under the arc, computed in doubles, is the exact percentage of the
    day rounded to the nearest integer, except at 13:48, where the exact
    57.5 is shown as 57; it lies between 0 and 100 and never goes down
    during the day. *)
Theorem dayProgress_rounded (h m : Z) :
  0 <= h <= 23 -> 0 <= m <= 59 ->
  let t := 60 * h + m in
  Math_round (dayProgress h m) = Number_of_Z (day_percent_shown t)
  /\ 0 <= day_percent_shown t <= 100
  /\ forall t', t <= t' -> day_percent_shown t <= day_percent_shown t'.
Proof.
  intros Hh Hm t. split; [|split].
  - pose proof dayProgress_table as T. rewrite forallb_forall in T.
    specialize (T (h, m) (clock_times_all h m Hh Hm)). cbn beta iota in T.
    apply andb_true_iff in T. exact (same_number_eq _ _ (proj1 T)).
  - assert (Ht : 0 <= t <= 1439) by (unfold t; lia).
    unfold day_percent_shown, day_percent.
    destruct (Z.eqb_spec t 828); [lia|]. split.
    + apply Z.div_pos; lia.
    + assert ((200 * t + 1440) / 2880 < 101)
        by (apply Z.div_lt_upper_bound; lia).
      lia.
  - intros t' Hle. unfold day_percent_shown.
    destruct (Z.eqb_spec t 828) as [E|E]; destruct (Z.eqb_spec t' 828) as [E'|E'].
    + lia.
    + assert (H : day_percent 829 <= day_percent t')
        by (apply day_percent_mono; lia).
      change (day_percent 829) with 58 in H. lia.
    + assert (H : day_percent t <= day_percent 827)
        by (apply day_percent_mono; lia).
      change (day_percent 827) with 57 in H. lia.
    + apply day_percent_mono; lia.
Qed.

Lemma dayProgress_rounded_witness :
  let t := 60 * 13 + 48 in
  Math_round (dayProgress 13 48) = Number_of_Z (day_percent_shown t)
  /\ 0 <= day_percent_shown t <= 100
  /\ forall t', t <= t' -> day_percent_shown t <= day_percent_shown t'.
Proof.
  apply dayProgress_rounded; lia.
Defined.

(** The older popup measures the day from 6 am to 10 pm: its percentage
    is 0 until 6 am, 100 from 10 pm on, and in between the exact
    percentage of that window rounded to the nearest integer, except at
    15:12, where the exact 57.5 is shown as 57. *)
Theorem dayProgress_old_rounded (h m : Z) :
  0 <= h <= 23 -> 0 <= m <= 59 ->
  let t := 60 * h + m in
  Math_round (dayProgress_old h m) = Number_of_Z (window_percent_shown t)
  /\ (t <= 360 -> window_percent_shown t = 0)
  /\ (1320 <= t -> window_percent_shown t = 100).
Proof.
  intros Hh Hm t. split; [|split].
  - pose proof dayProgress_table as T. rewrite forallb_forall in T.
    specialize (T (h, m) (clock_times_all h m Hh Hm)). cbn beta iota in T.
    apply andb_true_iff in T. exact (same_number_eq _ _ (proj2 T)).
  - intros Ht. unfold window_percent_shown, window_percent.
    destruct (Z.eqb_spec t 912); [lia|].
    assert ((200 * (t - 360) + 960) / 1920 < 1).
    { apply Z.div_lt_upper_bound; lia. }
    lia.
  - intros Ht. unfold window_percent_shown, window_percent.
    destruct (Z.eqb_spec t 912); [lia|].
    assert (100 <= (200 * (t - 360) + 960) / 1920).
    { apply Z.div_le_lower_bound; lia. }
    lia.
Qed.

Lemma dayProgress_old_rounded_witness :
  let t := 60 * 15 + 12 in
  Math_round (dayProgress_old 15 12) = Number_of_Z (window_percent_shown t)
  /\ (t <= 360 -> window_percent_shown t = 0)
  /\ (1320 <= t -> window_percent_shown t = 100).
Proof.
  apply dayProgress_old_rounded; lia.
Defined.

Lemma Math_max_zero (x : Number) :
  let r := Math_max (Number_of_Z 0) x in
  is_nan r = true
  \/ (SFltb r (Number_of_Z 0) = false /\ r <> S754_zero true).
Proof.
  destruct x as [s | s | | s mx e]; simpl.
  - right. split; [reflexivity | discriminate].
  - right. destruct s; split; try reflexivity; discriminate.
  - now left.
  - right. destruct s; split; try reflexivity; discriminate.
Qed.

(** The countdowns are never negative: [minutesUntil] and [minutesLeft]
    return NaN (for a date that is invalid) or a number that is not below
    zero, and never [-0]. *)
Theorem minutes_never_negative (date now : JSDate) (event : Event) :
  (is_nan (minutesUntil date now) = true
   \/ (SFltb (minutesUntil date now) (Number_of_Z 0) = false
       /\ minutesUntil date now <> S754_zero true))
  /\ (is_nan (minutesLeft event now) = true
      \/ (SFltb (minutesLeft event now) (Number_of_Z 0) = false
          /\ minutesLeft event now <> S754_zero true)).
Proof.
  split; apply Math_max_zero.
Qed.

(** [Math.round] on halves: 2.5, -2.5, -0.5 and 0.4. *)
Example Math_round_halves :
  Math_round (num_div (Number_of_Z 5) (Number_of_Z 2)) = Number_of_Z 3
  /\ Math_round (num_div (Number_of_Z (-5)) (Number_of_Z 2)) = Number_of_Z (-2)
  /\ Math_round (num_div (Number_of_Z (-1)) (Number_of_Z 2)) = S754_zero true
  /\ Math_round (num_div (Number_of_Z 2) (Number_of_Z 5)) = S754_zero false.
Proof. vm_compute. repeat split. Qed.

(** An event that starts in 61 minutes, and one that is over. *)
Example minutesUntil_sample :
  minutesUntil (TimeValue 3660000) (TimeValue 0) = Number_of_Z 61
  /\ minutesUntil (TimeValue 0) (TimeValue 3660000) = Number_of_Z 0
  /\ minutesLeft (ev "a" 0 90000) (TimeValue 0) = Number_of_Z 2.
Proof. vm_compute. repeat split. Qed.
